(** * GDL-90 stream decoder: a shallow embedding of [gdl90/lib/decoder.py]
      and of the notification handler of [gdl90/gdl90.py].

    Bytes are integers ([Z], values 0..255 in a [bytearray]); a [bytearray]
    is a [list Z].  Python exceptions are explicit results; the [while True]
    loops of the source take a fuel argument that the calling method derives
    from the length of the buffer it scans. *)

From Stdlib Require Import ZArith QArith List Lia Bool String.
From stdpp Require Import base option list gmap strings.

Local Open Scope Z_scope.
Local Open Scope nat_scope.

(** ** Exceptions and results *)

Inductive exn : Type :=
| ValueError
| IndexError
| KeyError
| TypeError
| OverflowError
| AttributeError (name : string).

Inductive result (A : Type) : Type :=
| Ok (a : A)
| Raise (e : exn)
| OutOfFuel.

Arguments Ok {A} a.
Arguments Raise {A} e.
Arguments OutOfFuel {A}.

#[global] Instance result_ret : MRet result := fun A a => Ok a.

#[global] Instance result_bind : MBind result := fun A B k r =>
  match r with
  | Ok a => k a
  | Raise e => Raise e
  | OutOfFuel => OutOfFuel
  end.

(** [try: r except ValueError: h] *)
Definition try_except_ValueError {A : Type} (r : result A) (h : result A) : result A :=
  match r with
  | Raise ValueError => h
  | _ => r
  end.

(** ** [bytearray] primitives *)

Definition FLAG : Z := 0x7e.

(** position of the first [x] in [l], counted from the head *)
Fixpoint find_index (x : Z) (l : list Z) : option nat :=
  match l with
  | [] => None
  | b :: r => if (b =? x)%Z then Some 0 else S <$> find_index x r
  end.

(** [l.index(x, start)]: [ValueError] when [x] does not occur at or after
    [start] *)
Definition index (l : list Z) (x : Z) (start : nat) : result nat :=
  match find_index x (drop start l) with
  | Some i => Ok (start + i)
  | None => Raise ValueError
  end.

(** [l[i]] for [i >= 0]: [IndexError] out of range *)
Definition getitem (l : list Z) (i : nat) : result Z :=
  match l !! i with
  | Some b => Ok b
  | None => Raise IndexError
  end.

(** [l[a:b]] for [0 <= a <= b] *)
Definition slice (l : list Z) (a b : nat) : list Z := take (b - a) (drop a l).

(** ** [Decoder._unescape] *)

Fixpoint unescape_loop (fuel : nat) (msg msgNew : list Z) (foundEscapeChar : bool)
    : result (list Z) :=
  match fuel with
  | O => OutOfFuel
  | S fuel' =>
    let escapeValue := 0x7d%Z in
    match index msg escapeValue 0 with
    | Ok i =>
      (* foundEscapeChar = True; msgNew.extend(msg[0:i]) *)
      let msgNew1 := msgNew ++ slice msg 0 i in
      match getitem msg (i + 1) with
      | Ok b =>
        let escapedValue := Z.lxor b 0x20 in
        unescape_loop fuel' (drop (i + 2) msg) (msgNew1 ++ [escapedValue]) true
      | Raise IndexError =>
        (* the handler runs with foundEscapeChar already set and with the
           prefix already copied; msg itself is untouched *)
        Ok (msgNew1 ++ msg)
      | Raise e => Raise e
      | OutOfFuel => OutOfFuel
      end
    | Raise ValueError =>
      if foundEscapeChar then Ok (msgNew ++ msg) else Ok msg
    | Raise e => Raise e
    | OutOfFuel => OutOfFuel
    end
  end.

Definition _unescape (msg : list Z) : result (list Z) :=
  unescape_loop (S (length msg)) msg [] false.

(** Modelled from the spec: the sender-side byte stuffing, which the
    repository does not contain; every occurrence of the delimiter (0x7E) or
    of the escape byte (0x7D) is replaced by 0x7D followed by the byte XOR
    0x20. *)
Fixpoint escape (P : list Z) : list Z :=
  match P with
  | [] => []
  | b :: r =>
    if ((b =? 0x7e) || (b =? 0x7d))%Z
    then 0x7d%Z :: Z.lxor b 0x20 :: escape r
    else b :: escape r
  end.

(** a frame that ends in an escape byte with nothing after it: scanning
    from the head, the last escape byte found has no byte to escape *)
Fixpoint dangling_escape (msg : list Z) : bool :=
  match msg with
  | [] => false
  | b :: r =>
    if (b =? 0x7d)%Z
    then match r with
         | [] => true
         | _ :: r' => dangling_escape r'
         end
    else dangling_escape r
  end.

(** ** Message objects

    [messages.messageToObject] returns a namedtuple or [None].  A namedtuple
    is its fields in order, each with its name; reading an attribute that the
    tuple does not have raises [AttributeError]. *)

Inductive Value : Type :=
| VNone
| VInt (z : Z)
| VFloat (q : Q)
| VStr (s : string)
| VBytes (b : list Z).

Definition Message : Type := list (string * Value).

Fixpoint lookup_field (m : Message) (name : string) : option Value :=
  match m with
  | [] => None
  | (n, v) :: r => if String.eqb n name then Some v else lookup_field r name
  end.

Definition getattr (m : Message) (name : string) : result Value :=
  match lookup_field m name with
  | Some v => Ok v
  | None => Raise (AttributeError name)
  end.

Definition hasattr (m : Message) (name : string) : bool :=
  match lookup_field m name with Some _ => true | None => false end.

(** Python's [==] between two values *)
Definition py_eq (a b : Value) : bool :=
  match a, b with
  | VNone, VNone => true
  | VInt x, VInt y => (x =? y)%Z
  | VFloat x, VFloat y => Qeq_bool x y
  | VInt x, VFloat y => Qeq_bool (inject_Z x) y
  | VFloat x, VInt y => Qeq_bool x (inject_Z y)
  | VStr x, VStr y => String.eqb x y
  | VBytes x, VBytes y => bool_decide (x = y)
  | _, _ => false
  end.

(** ** [str.format]

    The decoder prints a line for a Heartbeat and for a Traffic Report.  The
    text goes to stdout, which is not part of the model; what is kept of
    [str.format] is whether it returns, and the exception it raises when a
    value does not fit the format specification of its replacement field. *)

(** the four format specifications of [decoder.py]: [{:02X}], [{:0.7f}],
    [{:d}] and [{:s}] *)
Inductive format_spec : Type :=
| spec_02X
| spec_0_7f
| spec_d
| spec_s.

(** [format(v, spec)] for a non-empty [spec].  [None] and [bytes] have only
    [object.__format__], which refuses a non-empty specification with
    [TypeError]; [int], [float] and [str] raise [ValueError] on a
    presentation type that is not theirs.  An [int] under [f] is first
    converted to [float], [OverflowError] when it rounds to 2^1024 or
    more; an [int] under [d] is written in decimal, [ValueError] beyond
    the interpreter's default limit of 4300 digits. *)
Definition format_field (c : format_spec) (v : Value) : result unit :=
  match v with
  | VNone | VBytes _ => Raise TypeError
  | VInt z =>
    match c with
    | spec_02X => Ok tt
    | spec_d => if (Z.abs z <? 10 ^ 4300)%Z then Ok tt else Raise ValueError
    | spec_0_7f =>
      if (Z.abs z <? 2 ^ 1024 - 2 ^ 970)%Z then Ok tt else Raise OverflowError
    | spec_s => Raise ValueError
    end
  | VFloat _ =>
    match c with
    | spec_0_7f => Ok tt
    | _ => Raise ValueError
    end
  | VStr _ =>
    match c with
    | spec_s => Ok tt
    | _ => Raise ValueError
    end
  end.

(** [fmt.format( *args )] for a format string whose replacement fields are
    [specs], numbered automatically: the fields are formatted from left to
    right, the first failure is the one raised; an argument too few is an
    [IndexError], arguments too many are ignored *)
Fixpoint str_format (specs : list format_spec) (args : list Value) : result unit :=
  match specs with
  | [] => Ok tt
  | c :: cs =>
    match args with
    | [] => Raise IndexError
    | v :: vs => _ ← format_field c v; str_format cs vs
    end
  end.

(** the attributes [names] of [m], read from left to right *)
Fixpoint read_attrs (m : Message) (names : list string) : result (list Value) :=
  match names with
  | [] => Ok []
  | n :: r => v ← getattr m n; vs ← read_attrs m r; Ok (v :: vs)
  end.

(** The two modules the decoder imports and [src/] does not contain, as the
    interfaces [decoder.py] uses them through. *)

(** [messages]: [messageToObject] yields [None] or a message.  Nothing is
    assumed on the fields of the messages. *)
Class Messages := {
  messageToObject : list Z -> option Message
}.

(** [lib.fcs]: [crcCheck(msg, crc)] *)
Class Fcs := {
  crcCheck : list Z -> list Z -> bool
}.

(** ** The decoder object *)

Record Decoder (Sink : Type) : Type := mkDecoder {
  format : string;
  inputBuffer : list Z;
  parserSynchronized : bool;
  stats_msgCount : nat;
  stats_resync : nat;
  stats_msgs : gmap Z (nat * nat);
  return_handler : option (Message -> Sink -> result Sink);
  altitudeAge : Z;
  currtime : Z
}.

Arguments mkDecoder {Sink}.
Arguments format {Sink}.
Arguments inputBuffer {Sink}.
Arguments parserSynchronized {Sink}.
Arguments stats_msgCount {Sink}.
Arguments stats_resync {Sink}.
Arguments stats_msgs {Sink}.
Arguments return_handler {Sink}.
Arguments altitudeAge {Sink}.
Arguments currtime {Sink}.

Section DecoderObject.
Context {Sink : Type}.

Definition set_inputBuffer (b : list Z) (d : Decoder Sink) : Decoder Sink :=
  mkDecoder (format d) b (parserSynchronized d) (stats_msgCount d) (stats_resync d)
            (stats_msgs d) (return_handler d) (altitudeAge d) (currtime d).

Definition set_parserSynchronized (b : bool) (d : Decoder Sink) : Decoder Sink :=
  mkDecoder (format d) (inputBuffer d) b (stats_msgCount d) (stats_resync d)
            (stats_msgs d) (return_handler d) (altitudeAge d) (currtime d).

Definition set_stats_resync (n : nat) (d : Decoder Sink) : Decoder Sink :=
  mkDecoder (format d) (inputBuffer d) (parserSynchronized d) (stats_msgCount d) n
            (stats_msgs d) (return_handler d) (altitudeAge d) (currtime d).

Definition set_stats_msgs (m : gmap Z (nat * nat)) (d : Decoder Sink) : Decoder Sink :=
  mkDecoder (format d) (inputBuffer d) (parserSynchronized d) (stats_msgCount d)
            (stats_resync d) m (return_handler d) (altitudeAge d) (currtime d).

Definition set_altitudeAge (a : Z) (d : Decoder Sink) : Decoder Sink :=
  mkDecoder (format d) (inputBuffer d) (parserSynchronized d) (stats_msgCount d)
            (stats_resync d) (stats_msgs d) (return_handler d) a (currtime d).

Definition set_currtime (t : Z) (d : Decoder Sink) : Decoder Sink :=
  mkDecoder (format d) (inputBuffer d) (parserSynchronized d) (stats_msgCount d)
            (stats_resync d) (stats_msgs d) (return_handler d) (altitudeAge d) t.

(** [Decoder.__init__]; [utcnow] is the clock reading taken there, in
    seconds.  The attributes no method below reads or writes ([uatOutput],
    [messages], [reportFrequency], [altitude], [altitudeMaxAge],
    [gpsTimeReceived], [dayStart]) are left out. *)
Definition Decoder_init (utcnow : Z) : Decoder Sink :=
  mkDecoder "normal" [] false 0 0 {[ 0%Z := (0, 0) ]} None 9999 utcnow.

(** [self.heartbeatInterval], in seconds *)
Definition heartbeatInterval : Z := 1.

(** [Decoder.addReturnHandler] *)
Definition addReturnHandler (handler_func : Message -> Sink -> result Sink)
    (d : Decoder Sink) : Decoder Sink :=
  mkDecoder (format d) (inputBuffer d) (parserSynchronized d) (stats_msgCount d)
            (stats_resync d) (stats_msgs d) (Some handler_func) (altitudeAge d)
            (currtime d).

(** ** [Decoder._resynchronizeParser] *)

Fixpoint resync_loop (fuel : nat) (d : Decoder Sink) : result (bool * Decoder Sink) :=
  match fuel with
  | O => OutOfFuel
  | S fuel' =>
    if length (inputBuffer d) <? 2 then Ok (false, d)
    else
      b0 ← getitem (inputBuffer d) 0;
      both ← (if (b0 =? 0x7e)%Z
              then b1 ← getitem (inputBuffer d) 1; Ok (b1 =? 0x7e)%Z
              else Ok false);
      if (both : bool) then
        (* del(self.inputBuffer[0:1]) *)
        Ok (true, set_parserSynchronized true (set_inputBuffer (drop 1 (inputBuffer d)) d))
      else
        b0 ← getitem (inputBuffer d) 0;
        if (b0 =? 0x7e)%Z then Ok (true, set_parserSynchronized true d)
        else
          i ← try_except_ValueError (index (inputBuffer d) 0x7e 0)
                                    (Ok (length (inputBuffer d)));
          resync_loop fuel' (set_inputBuffer (drop i (inputBuffer d)) d)
  end.

Definition _resynchronizeParser (d : Decoder Sink) : result (bool * Decoder Sink) :=
  let d := set_parserSynchronized false d in
  let d := set_stats_resync (stats_resync d + 1) d in
  resync_loop (S (length (inputBuffer d))) d.

(** [self.stats['msgs'][k]] *)
Definition dict_getitem (m : gmap Z (nat * nat)) (k : Z) : result (nat * nat) :=
  match m !! k with
  | Some c => Ok c
  | None => Raise KeyError
  end.

Context `{Messages} `{Fcs}.

(** ** [Decoder._decodeMessage] *)

Definition _decodeMessage (d : Decoder Sink) (s : Sink) (escapedMessage : list Z)
    : result (bool * Decoder Sink * Sink) :=
  rawMsg ← _unescape escapedMessage;
  if length rawMsg <? 5 then Ok (false, d, s)
  else
    let msg := take (length rawMsg - 2) rawMsg in
    let crc := drop (length rawMsg - 2) rawMsg in
    let crcValid := crcCheck msg crc in
    t ← getitem msg 0;
    let d := match stats_msgs d !! t with
             | Some _ => d
             | None => set_stats_msgs (<[ t := (0, 0) ]> (stats_msgs d)) d
             end in
    c ← dict_getitem (stats_msgs d) t;
    if negb crcValid then
      Ok (false, set_stats_msgs (<[ t := (c.1, c.2 + 1) ]> (stats_msgs d)) d, s)
    else
      let d := set_stats_msgs (<[ t := (c.1 + 1, c.2) ]> (stats_msgs d)) d in
      match messageToObject msg with
      | None => Ok (false, d, s)
      | Some [] => Ok (false, d, s)
      | Some m =>
        handler ← match return_handler d with
                  | Some h => Ok h
                  | None => Raise TypeError
                  end;
        s ← handler m s;
        ty ← getattr m "MsgType";
        if py_eq ty (VStr "Heartbeat") then
          let d := set_currtime (currtime d + heartbeatInterval)%Z d in
          if String.eqb (format d) "normal" then
            args ← read_attrs m ["StatusByte1"; "StatusByte2"; "TimeStamp"]%string;
            _ ← str_format [spec_02X; spec_02X; spec_02X] args;
            Ok (true, d, s)
          else if String.eqb (format d) "plotflight" then
            Ok (true, set_altitudeAge (altitudeAge d + 1)%Z d, s)
          else Ok (true, d, s)
        else
          ty ← getattr m "MsgType";
          if py_eq ty (VStr "TrafficReport") then
            lat ← getattr m "Latitude";
            noPosition ←
              (if py_eq lat (VFloat 0)
               then lon ← getattr m "Longitude";
                    if py_eq lon (VFloat 0)
                    then nic ← getattr m "NavIntegrityCat"; Ok (py_eq nic (VInt 0))
                    else Ok false
               else Ok false);
            if (noPosition : bool) then Ok (true, d, s)
            else if String.eqb (format d) "normal" then
              args ← read_attrs m ["Latitude"; "Longitude"; "HVelocity"; "VVelocity";
                                   "Altitude"; "TrackHeading"; "CallSign"]%string;
              _ ← str_format [spec_0_7f; spec_0_7f; spec_d; spec_d; spec_d; spec_d;
                              spec_s] args;
              Ok (true, d, s)
            else Ok (true, d, s)
          else Ok (true, d, s)
      end.

(** ** [Decoder._parseMessages] *)

Fixpoint parse_loop (fuel : nat) (d : Decoder Sink) (s : Sink)
    : result (Decoder Sink * Sink) :=
  match fuel with
  | O => OutOfFuel
  | S fuel' =>
    if length (inputBuffer d) <? 2 then Ok (d, s)
    else
      b0 ← getitem (inputBuffer d) 0;
      '(synced, d) ← (if negb (b0 =? 0x7e)%Z
                      then _resynchronizeParser d
                      else Ok (true, d));
      if negb synced then Ok (d, s)
      else
        match index (inputBuffer d) 0x7e 1 with
        | Raise ValueError => Ok (d, s)
        | Raise e => Raise e
        | OutOfFuel => OutOfFuel
        | Ok i =>
          let msg := slice (inputBuffer d) 1 i in
          let d := set_inputBuffer (drop (i + 1) (inputBuffer d)) d in
          '(_, d, s) ← _decodeMessage d s msg;
          parse_loop fuel' d s
        end
  end.

Definition _parseMessages (d : Decoder Sink) (s : Sink) : result (Decoder Sink * Sink) :=
  if negb (parserSynchronized d) then
    '(synced, d) ← _resynchronizeParser d;
    if negb synced then Ok (d, s)
    else parse_loop (S (length (inputBuffer d))) d s
  else parse_loop (S (length (inputBuffer d))) d s.

(** ** [Decoder.addBytes] *)

Definition addBytes (d : Decoder Sink) (s : Sink) (data : list Z)
    : result (Decoder Sink * Sink) :=
  let d := set_inputBuffer (inputBuffer d ++ data) d in
  _parseMessages d s.

(** successive calls of [addBytes], one per chunk *)
Fixpoint feed (d : Decoder Sink) (s : Sink) (chunks : list (list Z))
    : result (Decoder Sink * Sink) :=
  match chunks with
  | [] => Ok (d, s)
  | c :: r => '(d, s) ← addBytes d s c; feed d s r
  end.

(** the frames handed to [_decodeMessage] one after the other *)
Fixpoint decode_frames (d : Decoder Sink) (s : Sink) (frames : list (list Z))
    : result (Decoder Sink * Sink) :=
  match frames with
  | [] => Ok (d, s)
  | f :: r => '(_, d, s) ← _decodeMessage d s f; decode_frames d s r
  end.

End DecoderObject.

(** ** Streams of frames *)

(** a frame on the wire: its escaped body between two delimiters *)
Definition frame (body : list Z) : list Z := FLAG :: body ++ [FLAG].

Definition stream (bodies : list (list Z)) : list Z := concat (frame <$> bodies).

(** an escaped body: not empty, and free of the delimiter *)
Definition body_ok (body : list Z) : Prop := body <> [] /\ FLAG ∉ body.

(** a run of bytes without any delimiter *)
Definition noise (c : list Z) : Prop := FLAG ∉ c.

(** ** Notification sinks *)


(** the sink that keeps every message it is called with, oldest first *)
Definition record_sink (m : Message) (log : list Message) : result (list Message) :=
  Ok (log ++ [m]).


(** ** [GDL90PubSub._GDL_return], the handler [gdl90.py] registers *)

Record GDL90PubSub (Bus : Type) : Type := mkGDL90PubSub {
  current_gdl_timestamp : Value;
  bus : Bus
}.

Arguments mkGDL90PubSub {Bus}.
Arguments current_gdl_timestamp {Bus}.
Arguments bus {Bus}.

Section Handler.
Context {Bus : Type}.

(** What the attribute lookup [self._senddata] finds.  The class body of
    [GDL90PubSub] defines [_send_data] and no [_senddata]; the base class
    [BaseMQTTPubSub] belongs to another package, so what it supplies is a
    parameter: [None] when it has no such method, else the effect of the
    call on the message bus. *)
Variable self__senddata : option (gmap string Value -> Bus -> result Bus).

Definition _GDL_return (message : Message) (self : GDL90PubSub Bus)
    : result (GDL90PubSub Bus) :=
  ty ← getattr message "MsgType";
  self ← (if py_eq ty (VStr "Heartbeat")
          then ts ← getattr message "Timestamp";
               Ok (mkGDL90PubSub ts (bus self))
          else Ok self);
  ty ← getattr message "MsgType";
  if py_eq ty (VStr "TrafficReport") then
    let publish_dict : gmap string Value := ∅ in
    v ← getattr message "VVelocity";
    let publish_dict := <[ "vertical_velocity"%string := v ]> publish_dict in
    let publish_dict := <[ "time"%string := current_gdl_timestamp self ]> publish_dict in
    v ← getattr message "Altitude";
    let publish_dict := <[ "altitude"%string := v ]> publish_dict in
    v ← getattr message "Address";
    let publish_dict := <[ "icao_hex"%string := v ]> publish_dict in
    v ← getattr message "HVelocity";
    let publish_dict := <[ "horizontal_velocity"%string := v ]> publish_dict in
    v ← getattr message "TrackHeading";
    let publish_dict := <[ "track"%string := v ]> publish_dict in
    v ← getattr message "Latitude";
    let publish_dict := <[ "lat"%string := v ]> publish_dict in
    v ← getattr message "Longitude";
    let publish_dict := <[ "lon"%string := v ]> publish_dict in
    v ← getattr message "CallSign";
    let publish_dict := <[ "flight"%string := v ]> publish_dict in
    senddata ← match self__senddata with
               | Some f => Ok f
               | None => Raise (AttributeError "_senddata")
               end;
    b ← senddata publish_dict (bus self);
    Ok (mkGDL90PubSub (current_gdl_timestamp self) b)
  else
    (* logging.info *)
    Ok self.

(** [GDL90PubSub.__init__], as far as the handler's state goes *)
Definition GDL90PubSub_init (b : Bus) : GDL90PubSub Bus := mkGDL90PubSub VNone b.

End Handler.

(** ** The imported modules, for running the decoder on concrete bytes *)

(** Modelled from the spec: [lib/fcs.py] is not under [src/]; the checksum
    is the CRC-16 of the GDL-90 interface specification (CCITT polynomial
    0x1021, most significant bit first, initial value 0), sent low byte
    first. *)
Definition crc16_table (i : Z) : Z :=
  Nat.iter 8
    (fun crc => Z.lxor (Z.land (Z.shiftl crc 1) 0xffff)
                       (if Z.testbit crc 15 then 0x1021 else 0)%Z)
    (Z.shiftl i 8).

Definition crcCompute (data : list Z) : list Z :=
  let crc :=
    fold_left
      (fun crc c => Z.lxor (Z.lxor (crc16_table (Z.shiftr crc 8))
                                   (Z.land (Z.shiftl crc 8) 0xffff)) c)
      data 0%Z in
  [Z.land crc 0xff; Z.shiftr (Z.land crc 0xff00) 8].

#[local] Instance gdl90_fcs : Fcs := {|
  crcCheck msg crc :=
    match crc, crcCompute msg with
    | [c0; c1], [k0; k1] => ((c0 =? k0) && (c1 =? k1))%Z
    | _, _ => false
    end
|}.

(** Modelled from the spec: [lib/messages.py] is not under [src/]; the
    Heartbeat message (type id 0, seven bytes) of the GDL-90 interface
    specification, with the attribute names [decoder.py] reads.  Every other
    type id is unrecognised. *)
Definition Heartbeat_message (s1 s2 ts : Z) (counts : list Z) : Message :=
  [("MsgType", VStr "Heartbeat"); ("StatusByte1", VInt s1);
   ("StatusByte2", VInt s2); ("TimeStamp", VInt ts);
   ("MessageCounts", VBytes counts)]%string.

Definition parseHeartbeat (msg : list Z) : option Message :=
  if (length msg =? 7) && (nth 0 msg 0 =? 0)%Z then
    let s1 := nth 1 msg 0%Z in
    let s2 := nth 2 msg 0%Z in
    let ts := Z.lor (nth 3 msg 0%Z) (Z.shiftl (nth 4 msg 0%Z) 8) in
    let ts := if Z.testbit s2 7 then Z.lor ts (Z.shiftl 1 16) else ts in
    Some (Heartbeat_message s1 s2 ts (drop 5 msg))
  else None.

#[local] Instance heartbeat_messages : Messages := {|
  messageToObject := parseHeartbeat
|}.

(** Modelled from the spec: the sender's side of a frame body, the message
    followed by its CRC, low byte first, then byte-stuffed. *)
Definition sealed (msg : list Z) : list Z := escape (msg ++ crcCompute msg).

(** the Heartbeat of the interface specification's worked example; its
    checksum bytes are 0xB3 0x8B *)
Definition example_heartbeat : list Z := [0x00; 0x81; 0x41; 0xDB; 0xD0; 0x08; 0x02]%Z.

(** a Traffic Report as the handler of [gdl90.py] reads it *)
Definition example_traffic : Message :=
  [("MsgType", VStr "TrafficReport"); ("Address", VInt 0xAB4549);
   ("Latitude", VFloat (4490 # 100)); ("Longitude", VFloat (-12299 # 100));
   ("Altitude", VInt 5000); ("NavIntegrityCat", VInt 10);
   ("HVelocity", VInt 123); ("VVelocity", VInt 64);
   ("TrackHeading", VInt 45); ("CallSign", VStr "N825V")]%string.

(** ** A decoder to run *)

(** a decoder whose handler keeps the messages it is given *)
Definition recording_decoder : Decoder (list Message) :=
  addReturnHandler record_sink (Decoder_init 0).

(** three Heartbeat bodies, one second apart *)
Definition frame_A : list Z := sealed example_heartbeat.
Definition frame_B : list Z := sealed [0x00; 0x81; 0x41; 0xDC; 0xD0; 0x08; 0x02]%Z.
Definition frame_C : list Z := sealed [0x00; 0x81; 0x41; 0xDD; 0xD0; 0x08; 0x02]%Z.

Definition message_A : Message := Heartbeat_message 0x81 0x41 0xD0DB [8; 2]%Z.

(** the example Heartbeat with its second checksum byte changed *)
Definition corrupted_A : list Z := example_heartbeat ++ [0xB3; 0x8C]%Z.

(** the recording decoder once it has decoded [frame_A] *)
Definition recording_decoder_after_A : Decoder (list Message) :=
  set_currtime 1 (set_stats_msgs {[ 0%Z := (1, 0) ]} recording_decoder).

(** ** What [_resynchronizeParser] leaves in the buffer *)

(** the buffer from its first delimiter on; empty when it has none *)
Definition skip_to_flag (buf : list Z) : list Z :=
  match find_index FLAG buf with
  | Some i => drop i buf
  | None => []
  end.

(** the decision on a buffer that is empty or starts with a delimiter *)
Definition settle (buf : list Z) : bool * list Z :=
  match buf with
  | b0 :: b1 :: r =>
    if (b0 =? 0x7e)%Z
    then if (b1 =? 0x7e)%Z then (true, b1 :: r) else (true, buf)
    else (false, buf)
  | _ => (false, buf)
  end.

Definition resync_buffer (buf : list Z) : bool * list Z :=
  match buf with
  | b0 :: _ :: _ => if (b0 =? 0x7e)%Z then settle buf else settle (skip_to_flag buf)
  | _ => (false, buf)
  end.

(** the three attributes the framing code owns, set at once *)
Definition with_parser {Sink : Type} (buf : list Z) (synced : bool) (resync : nat)
    (d : Decoder Sink) : Decoder Sink :=
  mkDecoder (format d) buf synced (stats_msgCount d) resync
            (stats_msgs d) (return_handler d) (altitudeAge d) (currtime d).

(** ** What [_decodeMessage] does with an unescaped frame *)

Section DecodeOutcome.
Context {Sink : Type} `{Messages} `{Fcs}.

(** [rawMsg[:-2]] and [rawMsg[-2:]] *)
Definition payload (rawMsg : list Z) : list Z := take (length rawMsg - 2) rawMsg.
Definition checksum (rawMsg : list Z) : list Z := drop (length rawMsg - 2) rawMsg.

(** one more success, or one more CRC failure *)
Definition count_update (crcValid : bool) (c : nat * nat) : nat * nat :=
  if crcValid then (c.1 + 1, c.2) else (c.1, c.2 + 1).

(** [stats['msgs']] after a frame that unescapes to [rawMsg] *)
Definition stats_after (msgs : gmap Z (nat * nat)) (rawMsg : list Z)
    : gmap Z (nat * nat) :=
  if length rawMsg <? 5 then msgs
  else match rawMsg with
       | t :: _ =>
         <[ t := count_update (crcCheck (payload rawMsg) (checksum rawMsg))
                              (default (0, 0) (msgs !! t)) ]> msgs
       | [] => msgs
       end.

(** the message, if any, that reaches the return handler *)
Definition dispatched (rawMsg : list Z) : option Message :=
  if length rawMsg <? 5 then None
  else if crcCheck (payload rawMsg) (checksum rawMsg)
       then match messageToObject (payload rawMsg) with
            | Some (x :: m) => Some (x :: m)
            | _ => None
            end
       else None.

(** what the lines after the handler call read and print, in the output
    format [fmt]: the exception they raise, if any *)
Definition print_message (fmt : string) (m : Message) : result unit :=
  ty ← getattr m "MsgType";
  if py_eq ty (VStr "Heartbeat") then
    if String.eqb fmt "normal" then
      args ← read_attrs m ["StatusByte1"; "StatusByte2"; "TimeStamp"]%string;
      str_format [spec_02X; spec_02X; spec_02X] args
    else Ok tt
  else if py_eq ty (VStr "TrafficReport") then
    lat ← getattr m "Latitude";
    noPosition ←
      (if py_eq lat (VFloat 0)
       then lon ← getattr m "Longitude";
            if py_eq lon (VFloat 0)
            then nic ← getattr m "NavIntegrityCat"; Ok (py_eq nic (VInt 0))
            else Ok false
       else Ok false);
    if (noPosition : bool) then Ok tt
    else if String.eqb fmt "normal" then
      args ← read_attrs m ["Latitude"; "Longitude"; "HVelocity"; "VVelocity";
                           "Altitude"; "TrackHeading"; "CallSign"]%string;
      str_format [spec_0_7f; spec_0_7f; spec_d; spec_d; spec_d; spec_d; spec_s] args
    else Ok tt
  else Ok tt.


(** the decoder's own bookkeeping after the handler has returned *)
Definition note_message (m : Message) (d : Decoder Sink) : Decoder Sink :=
  if py_eq (default VNone (lookup_field m "MsgType")) (VStr "Heartbeat") then
    let d := set_currtime (currtime d + heartbeatInterval)%Z d in
    if String.eqb (format d) "plotflight"
    then set_altitudeAge (altitudeAge d + 1)%Z d
    else d
  else d.

(** the escaped body [body] is a frame that passes the length and CRC
    checks and that [messageToObject] turns into the message [m] *)
Definition decodes_to (body : list Z) (m : Message) : Prop :=
  exists rawMsg, _unescape body = Ok rawMsg /\ dispatched rawMsg = Some m.

End DecodeOutcome.

(** the unread end of a stream: nothing, or a delimiter and the bytes of a
    frame that has not been closed yet *)
Definition partial_frame (tail : list Z) : Prop :=
  tail = [] \/ exists p, tail = FLAG :: p /\ (FLAG ∉ p).


(** ** Byte unstuffing, read one byte at a time *)

(** the scan that the interface describes: an escape byte is dropped and the
    byte after it is XORed with 0x20, every other byte is copied; a trailing
    escape byte with nothing after it yields nothing *)
Fixpoint unstuff (msg : list Z) : list Z :=
  match msg with
  | [] => []
  | b :: r =>
    if (b =? 0x7d)%Z
    then match r with
         | [] => []
         | c :: r' => Z.lxor c 0x20 :: unstuff r'
         end
    else b :: unstuff r
  end.

(** ** What a call may change *)

(** from [d] to [d'] the counters, the clock and the altitude age have not
    gone down, no statistics entry is gone, and [msgCount], the handler and
    the format are the same *)
Definition stats_grow {Sink : Type} (d d' : Decoder Sink) : Prop :=
  stats_msgCount d' = stats_msgCount d
  /\ stats_resync d <= stats_resync d'
  /\ (currtime d <= currtime d')%Z
  /\ (altitudeAge d <= altitudeAge d')%Z
  /\ return_handler d' = return_handler d
  /\ format d' = format d
  /\ forall k c, stats_msgs d !! k = Some c ->
       exists c', stats_msgs d' !! k = Some c' /\ c.1 <= c'.1 /\ c.2 <= c'.2.

(** a buffer the parser can do nothing more with: fewer than two bytes, or,
    in a synchronised parser, a delimiter and the bytes of a frame that is
    not closed yet *)
Definition idle {Sink : Type} (d : Decoder Sink) : Prop :=
  length (inputBuffer d) < 2
  \/ (parserSynchronized d = true
      /\ exists p, inputBuffer d = FLAG :: p /\ (FLAG ∉ p)).

(** ** The parser as a machine that reads one byte at a time *)

(** What the parser knows between two bytes: it is out of step with nothing
    to keep ([Unsync]), out of step but holding one delimiter
    ([UnsyncFlag]), in step between two frames ([Sync0]), or in step inside
    a frame of which it holds the bytes [p] ([InFrame p]). *)
Inductive pstate : Type :=
| Unsync
| UnsyncFlag
| Sync0
| InFrame (p : list Z).

(** one byte: the next state and, when the byte closes a frame, its body *)
Definition machine_step (st : pstate) (b : Z) : pstate * option (list Z) :=
  match st with
  | Unsync => if (b =? 0x7e)%Z then (UnsyncFlag, None) else (Unsync, None)
  | UnsyncFlag => if (b =? 0x7e)%Z then (InFrame [], None) else (InFrame [b], None)
  | Sync0 => if (b =? 0x7e)%Z then (InFrame [], None) else (Unsync, None)
  | InFrame p => if (b =? 0x7e)%Z then (Sync0, Some p) else (InFrame (p ++ [b]), None)
  end.

(** the bodies closed while reading [data], in order, and the state after *)
Fixpoint machine_run (st : pstate) (data : list Z) : list (list Z) * pstate :=
  match data with
  | [] => ([], st)
  | b :: r =>
    let '(st', out) := machine_step st b in
    let '(fs, stf) := machine_run st' r in
    (match out with Some f => f :: fs | None => fs end, stf)
  end.

(** which buffer and flag of the decoder stand for which state of the
    machine *)
Inductive repr : pstate -> list Z -> bool -> Prop :=
| repr_unsync : repr Unsync [] false
| repr_unsync_byte x sy : x <> FLAG -> repr Unsync [x] sy
| repr_unsync_flag : repr UnsyncFlag [FLAG] false
| repr_sync0 : repr Sync0 [] true
| repr_in_frame p : (FLAG ∉ p) -> repr (InFrame p) (FLAG :: p) true.

(** ** Two runs that agree on everything but the framing bookkeeping *)

(** both runs return, with the same sink, the same message statistics, clock
    and altitude age, and with buffers that stand for the same state of the
    machine; or both raise the same exception *)
Definition same_messages {Sink : Type} (r1 r2 : result (Decoder Sink * Sink)) : Prop :=
  match r1, r2 with
  | Ok (d1, s1), Ok (d2, s2) =>
    s1 = s2
    /\ stats_msgs d1 = stats_msgs d2
    /\ stats_msgCount d1 = stats_msgCount d2
    /\ currtime d1 = currtime d2
    /\ altitudeAge d1 = altitudeAge d2
    /\ exists st, repr st (inputBuffer d1) (parserSynchronized d1)
                  /\ repr st (inputBuffer d2) (parserSynchronized d2)
  | Raise e1, Raise e2 => e1 = e2
  | OutOfFuel, OutOfFuel => True
  | _, _ => False
  end.

(** ** What the handler of [gdl90.py] reads and publishes *)

(** the attributes of a Traffic Report that [_GDL_return] reads, in the
    order of the source *)
Definition traffic_attrs : list string :=
  ["VVelocity"; "Altitude"; "Address"; "HVelocity"; "TrackHeading";
   "Latitude"; "Longitude"; "CallSign"]%string.

(** the keys of [publish_dict] that come from the message, each with the
    attribute it holds *)
Definition published_keys : list (string * string) :=
  [("vertical_velocity", "VVelocity"); ("altitude", "Altitude");
   ("icao_hex", "Address"); ("horizontal_velocity", "HVelocity");
   ("track", "TrackHeading"); ("lat", "Latitude"); ("lon", "Longitude");
   ("flight", "CallSign")]%string.

(** ** Pieces of [_parseMessages], named for the proofs *)

Section ParserPieces.
Context {Sink : Type} `{Messages} `{Fcs}.

(** the end of one turn of the loop of [_parseMessages]: the search for the
    end marker, the extraction, the decoding, and the next turns *)
Definition extract_next (fuel : nat) (d : Decoder Sink) (s : Sink)
    : result (Decoder Sink * Sink) :=
  match index (inputBuffer d) 0x7e 1 with
  | Raise ValueError => Ok (d, s)
  | Raise e => Raise e
  | OutOfFuel => OutOfFuel
  | Ok i =>
    let msg := slice (inputBuffer d) 1 i in
    let d := set_inputBuffer (drop (i + 1) (inputBuffer d)) d in
    '(_, d, s) ← _decodeMessage d s msg;
    parse_loop fuel d s
  end.

(** [_parseMessages] on a decoder whose buffer, flag and resync counter are
    given *)
Definition PM (buf : list Z) (sy : bool) (rs : nat) (d : Decoder Sink) (s : Sink)
    : result (Decoder Sink * Sink) :=
  _parseMessages (with_parser buf sy rs d) s.

(** the frames [frames] decoded in turn, then buffer, flag and resync
    counter set *)
Definition RES (frames : list (list Z)) (buf : list Z) (sy : bool) (rs : nat)
    (d : Decoder Sink) (s : Sink) : result (Decoder Sink * Sink) :=
  '(d', s') ← decode_frames d s frames; Ok (with_parser buf sy rs d', s').

End ParserPieces.

(** ** Facts on the primitives *)

Lemma find_index_None x l : find_index x l = None <-> x ∉ l.
Proof.
  induction l as [|b r IH]; simpl.
  - split; [intros _; apply not_elem_of_nil | done].
  - destruct (Z.eqb_spec b x) as [->|Hne].
    + split; [done | intros H; exfalso; apply H; left].
    + rewrite not_elem_of_cons. destruct (find_index x r); simpl.
      * split; [done | intros [_ H]; apply IH in H; done].
      * split; [intros _; split; [congruence | by apply IH] | done].
Qed.

Lemma find_index_Some x l i :
  find_index x l = Some i ->
  exists a r, l = a ++ x :: r /\ length a = i /\ x ∉ a.
Proof.
  revert i. induction l as [|b r IH]; simpl; intros i H; [done|].
  destruct (Z.eqb_spec b x) as [->|Hne].
  - injection H as <-. exists [], r. split_and!; [done | done | apply not_elem_of_nil].
  - destruct (find_index x r) as [j|] eqn:E; simpl in H; [|done].
    injection H as <-. destruct (IH j eq_refl) as (a & r' & -> & Hl & Hn).
    exists (b :: a), r'. split_and!; [done | simpl; lia |].
    rewrite not_elem_of_cons. split; [congruence | done].
Qed.

Lemma find_index_app x a r : x ∉ a -> find_index x (a ++ x :: r) = Some (length a).
Proof.
  induction a as [|b a IH]; simpl; intros H.
  - by rewrite Z.eqb_refl.
  - apply not_elem_of_cons in H as [H1 H2].
    destruct (Z.eqb_spec b x); [congruence|]. by rewrite IH.
Qed.

Lemma find_index_lt x l i : find_index x l = Some i -> i < length l.
Proof.
  intros (a & r & -> & <- & _)%find_index_Some. rewrite length_app. simpl. lia.
Qed.

Lemma index_0_app x a r : x ∉ a -> index (a ++ x :: r) x 0 = Ok (length a).
Proof.
  intros Hn. unfold index. rewrite drop_0, find_index_app by done. done.
Qed.

Lemma index_0_None l x : x ∉ l -> index l x 0 = Raise ValueError.
Proof.
  intros Hn. unfold index. rewrite drop_0.
  by apply find_index_None in Hn as ->.
Qed.

Lemma index_0_inv l x :
  (exists a r, l = a ++ x :: r /\ (x ∉ a) /\ index l x 0 = Ok (length a))
  \/ ((x ∉ l) /\ index l x 0 = Raise ValueError).
Proof.
  destruct (find_index x l) as [i|] eqn:E.
  - left. apply find_index_Some in E as (a & r & -> & _ & Hn).
    exists a, r. split_and!; [done | done | by apply index_0_app].
  - right. apply find_index_None in E. split; [done | by apply index_0_None].
Qed.

Lemma getitem_app_r (a l : list Z) i : getitem (a ++ l) (length a + i) = getitem l i.
Proof. unfold getitem. by rewrite lookup_app_r, Nat.add_comm, Nat.add_sub by lia. Qed.

Lemma slice_0_app (a l : list Z) : slice (a ++ l) 0 (length a) = a.
Proof. unfold slice. by rewrite drop_0, Nat.sub_0_r, take_app_length. Qed.

Lemma drop_app_add (a l : list Z) n : drop (length a + n) (a ++ l) = drop n l.
Proof. by rewrite drop_app_add'. Qed.

(** ** [_unescape] *)

Lemma unescape_loop_total fuel msg msgNew found :
  length msg < fuel ->
  exists raw, unescape_loop fuel msg msgNew found = Ok raw.
Proof.
  revert msg msgNew found. induction fuel as [|fuel IH]; intros msg msgNew found Hf; [lia|].
  simpl. destruct (index_0_inv msg 0x7d) as [(a & r & -> & Hn & ->)|[Hn ->]].
  - replace (length a + 1) with (length a + 1) by done. rewrite getitem_app_r.
    destruct r as [|c r]; simpl; [by eexists|].
    apply IH. rewrite length_drop, length_app in *. simpl in *. lia.
  - destruct found; by eexists.
Qed.

Lemma unescape_total msg : exists raw, _unescape msg = Ok raw.
Proof. apply unescape_loop_total. lia. Qed.

Lemma dangling_escape_app a l :
  0x7d%Z ∉ a -> dangling_escape (a ++ l) = dangling_escape l.
Proof.
  induction a as [|b a IH]; intros Hn; [done|].
  apply not_elem_of_cons in Hn as [Hb Ha]. simpl.
  destruct (Z.eqb_spec b 0x7d); [congruence | by apply IH].
Qed.

Lemma dangling_escape_elem msg : dangling_escape msg = true -> 0x7d%Z ∈ msg.
Proof.
  destruct (decide (0x7d%Z ∈ msg)) as [|Hn]; [done|].
  intros Hd. rewrite <- (app_nil_r msg), dangling_escape_app in Hd by done. done.
Qed.

Lemma unescape_loop_dangling fuel msg msgNew found :
  dangling_escape msg = true -> length msg < fuel ->
  exists raw, unescape_loop fuel msg msgNew found = Ok (raw ++ [0x7d%Z]).
Proof.
  revert msg msgNew found. induction fuel as [|fuel IH]; intros msg msgNew found Hd Hf; [lia|].
  simpl. destruct (index_0_inv msg 0x7d) as [(a & r & -> & Hn & ->)|[Hn ->]].
  - rewrite getitem_app_r, slice_0_app. rewrite dangling_escape_app in Hd by done.
    destruct r as [|c r]; simpl in *.
    + exists ((msgNew ++ a) ++ a). by rewrite <- !(assoc_L (++)).
    + apply IH.
      * rewrite (drop_app_add a (_ :: _ :: _) 2). simpl. by rewrite drop_0.
      * rewrite length_drop, length_app. rewrite length_app in Hf. simpl in *. lia.
  - apply dangling_escape_elem in Hd. done.
Qed.

Lemma unescape_loop_escape P : forall a msgNew found fuel,
  0x7d%Z ∉ a -> length (a ++ escape P) < fuel ->
  (found = true \/ msgNew = []) ->
  unescape_loop fuel (a ++ escape P) msgNew found = Ok (msgNew ++ a ++ P).
Proof.
  induction P as [|b P IH]; intros a msgNew found fuel Ha Hf Hfound.
  - destruct fuel as [|fuel]; [lia|]. simpl. rewrite app_nil_r, index_0_None by done.
    destruct Hfound as [->| ->]; [done | by destruct found].
  - simpl in *. destruct ((b =? 0x7e)%Z || (b =? 0x7d)%Z) eqn:Hb.
    + destruct fuel as [|fuel]; [lia|]. simpl.
      rewrite index_0_app by done. rewrite getitem_app_r, slice_0_app. simpl.
      rewrite (drop_app_add a (_ :: _ :: _) 2). simpl. rewrite drop_0.
      rewrite (IH [] _ true fuel); [| apply not_elem_of_nil | | by left].
      * rewrite Z.lxor_assoc, Z.lxor_nilpotent, Z.lxor_0_r. simpl.
        by rewrite <- !(assoc_L (++)).
      * rewrite length_app in Hf. simpl in *. lia.
    + apply orb_false_iff in Hb as [_ Hb%Z.eqb_neq].
      rewrite (cons_middle b), (assoc_L (++)).
      rewrite IH; [by rewrite <- !(assoc_L (++)) | | | done].
      * rewrite not_elem_of_app, not_elem_of_cons. split_and!; [done | congruence | apply not_elem_of_nil].
      * rewrite <- (assoc_L (++)). done.
Qed.

(** C8. For every byte sequence [P], unescaping the escaped sequence gives
    [P] back: [_unescape (escape P)] returns [P], where [escape] puts 0x7D
    before every 0x7E and 0x7D and XORs that byte with 0x20. *)
Theorem unescape_escape_roundtrip (P : list Z) : _unescape (escape P) = Ok P.
Proof.
  unfold _unescape.
  apply (unescape_loop_escape P [] [] false); [apply not_elem_of_nil | simpl; lia | by right].
Qed.

(** ** The decoder's framing state *)

Section DecoderFacts.
Context {Sink : Type} `{Messages} `{Fcs}.
Implicit Types (d : Decoder Sink) (s : Sink) (buf body : list Z).

Lemma with_parser_id d :
  with_parser (inputBuffer d) (parserSynchronized d) (stats_resync d) d = d.
Proof. by destruct d. Qed.

Lemma set_inputBuffer_with_parser buf d :
  set_inputBuffer buf d = with_parser buf (parserSynchronized d) (stats_resync d) d.
Proof. done. Qed.

Lemma with_parser_with_parser buf sy rs buf' sy' rs' d :
  with_parser buf sy rs (with_parser buf' sy' rs' d) = with_parser buf sy rs d.
Proof. done. Qed.

Lemma skip_to_flag_cases buf :
  (skip_to_flag buf = [] /\ (FLAG ∉ buf))
  \/ (exists a r, buf = a ++ FLAG :: r /\ (FLAG ∉ a) /\ skip_to_flag buf = FLAG :: r).
Proof.
  unfold skip_to_flag. destruct (find_index FLAG buf) as [i|] eqn:E.
  - right. apply find_index_Some in E as (a & r & -> & <- & Hn).
    exists a, r. split_and!; [done | done |].
    by rewrite <- (Nat.add_0_r (length a)), drop_app_add.
  - left. by apply find_index_None in E.
Qed.

Lemma skip_to_flag_length buf : length (skip_to_flag buf) <= length buf.
Proof.
  unfold skip_to_flag. destruct (find_index FLAG buf); simpl; [|lia].
  rewrite length_drop. lia.
Qed.

Lemma resync_loop_settle fuel d :
  0 < fuel ->
  inputBuffer d = [] \/ (exists r, inputBuffer d = FLAG :: r) ->
  resync_loop fuel d =
    Ok ((settle (inputBuffer d)).1,
        with_parser (settle (inputBuffer d)).2
                    (parserSynchronized d || (settle (inputBuffer d)).1)
                    (stats_resync d) d).
Proof.
  intros Hf Hb. destruct fuel as [|fuel]; [lia|]. destruct d as [? buf sy ? ? ? ? ? ?].
  simpl in *. destruct Hb as [->|[r ->]]; simpl.
  - by rewrite orb_false_r.
  - destruct r as [|b1 r]; simpl; [by rewrite orb_false_r|].
    unfold FLAG. simpl. destruct (b1 =? 126)%Z eqn:E; simpl; by rewrite orb_true_r.
Qed.

Lemma resync_loop_eq fuel d :
  0 < fuel -> (2 <= length (inputBuffer d) -> 1 < fuel) ->
  resync_loop fuel d =
    Ok ((resync_buffer (inputBuffer d)).1,
        with_parser (resync_buffer (inputBuffer d)).2
                    (parserSynchronized d || (resync_buffer (inputBuffer d)).1)
                    (stats_resync d) d).
Proof.
  intros Hf Hf2. destruct fuel as [|fuel]; [lia|].
  destruct (decide (length (inputBuffer d) < 2)) as [Hl|Hl].
  - destruct d as [? buf sy ? rs ? ? ? ?]. simpl in *.
    destruct buf as [|b0 [|b1 r]]; simpl in *; try lia; by rewrite orb_false_r.
  - destruct d as [? buf sy ? rs ? ? ? ?]. simpl in Hl, Hf2.
    destruct buf as [|b0 [|b1 r]]; simpl in Hl; try lia.
    specialize (Hf2 ltac:(simpl; lia)).
    simpl. unfold getitem. simpl. destruct (b0 =? 126)%Z eqn:E0; simpl.
    + destruct (b1 =? 126)%Z eqn:E1; simpl; by rewrite ?orb_true_r.
    + rewrite ?E0. simpl.
      destruct (skip_to_flag_cases (b0 :: b1 :: r)) as [[Hs Hn]|(a & r' & Hb & Hn & Hs)].
      * rewrite index_0_None by done. simpl.
        rewrite drop_all, resync_loop_settle; [| lia | by left].
        rewrite Hs. simpl. by rewrite orb_false_r.
      * rewrite Hs. rewrite Hb at 1. rewrite index_0_app by done. simpl.
        rewrite Hb at 1. rewrite <- (Nat.add_0_r (length a)), drop_app_add, drop_0.
        rewrite resync_loop_settle; [done | lia | right; by eexists].
Qed.

Lemma resynchronizeParser_eq d :
  _resynchronizeParser d =
    Ok ((resync_buffer (inputBuffer d)).1,
        with_parser (resync_buffer (inputBuffer d)).2
                    (resync_buffer (inputBuffer d)).1
                    (stats_resync d + 1) d).
Proof.
  unfold _resynchronizeParser. rewrite resync_loop_eq; [by destruct d | lia |].
  destruct d; simpl; lia.
Qed.

(** ** [_decodeMessage] *)

Lemma hasattr_lookup m n : hasattr m n = true -> exists v, lookup_field m n = Some v.
Proof. unfold hasattr. destruct (lookup_field m n); [by eexists | done]. Qed.

(** the lines of [_decodeMessage] after the handler call: what they read
    and print, then the decoder's own bookkeeping *)
Lemma after_handler_eq m (d1 : Decoder Sink) (s' : Sink) :
  (ty ← getattr m "MsgType";
   if py_eq ty (VStr "Heartbeat") then
     let d := set_currtime (currtime d1 + heartbeatInterval)%Z d1 in
     if String.eqb (format d) "normal" then
       args ← read_attrs m ["StatusByte1"; "StatusByte2"; "TimeStamp"]%string;
       _ ← str_format [spec_02X; spec_02X; spec_02X] args;
       Ok (true, d, s')
     else if String.eqb (format d) "plotflight" then
       Ok (true, set_altitudeAge (altitudeAge d + 1)%Z d, s')
     else Ok (true, d, s')
   else
     ty ← getattr m "MsgType";
     if py_eq ty (VStr "TrafficReport") then
       lat ← getattr m "Latitude";
       noPosition ←
         (if py_eq lat (VFloat 0)
          then lon ← getattr m "Longitude";
               if py_eq lon (VFloat 0)
               then nic ← getattr m "NavIntegrityCat"; Ok (py_eq nic (VInt 0))
               else Ok false
          else Ok false);
       if (noPosition : bool) then Ok (true, d1, s')
       else if String.eqb (format d1) "normal" then
         args ← read_attrs m ["Latitude"; "Longitude"; "HVelocity"; "VVelocity";
                              "Altitude"; "TrackHeading"; "CallSign"]%string;
         _ ← str_format [spec_0_7f; spec_0_7f; spec_d; spec_d; spec_d; spec_d;
                         spec_s] args;
         Ok (true, d1, s')
       else Ok (true, d1, s')
     else Ok (true, d1, s'))
  = (_ ← print_message (format d1) m; Ok (true, note_message m d1, s')).
Proof.
  unfold print_message, note_message, getattr.
  destruct (lookup_field m "MsgType") as [ty|] eqn:Ety; [|done].
  cbn [mbind result_bind]. unfold default. cbn [from_option id].
  destruct (py_eq ty (VStr "Heartbeat")) eqn:Ehb.
  - cbv zeta. cbn [format set_currtime].
    destruct (String.eqb_spec (format d1) "normal") as [Hn|_].
    + rewrite Hn. cbn [String.eqb Ascii.eqb Bool.eqb].
      destruct (read_attrs m _) as [args| |]; [|done|done]. cbn [mbind result_bind].
      by destruct (str_format _ args) as [[]| |].
    + by destruct (format d1 =? "plotflight")%string.
  - destruct (py_eq ty (VStr "TrafficReport")) eqn:Etr; [|done].
    destruct (lookup_field m "Latitude") as [lat|]; [|done]. cbn [mbind result_bind].
    set (np := if py_eq lat (VFloat 0) then _ else _).
    destruct np as [[]| |]; cbn [mbind result_bind]; try done.
    destruct (format d1 =? "normal")%string; [|done].
    destruct (read_attrs m _) as [args| |]; [|done|done]. cbn [mbind result_bind].
    by destruct (str_format _ args) as [[]| |].
Qed.

Lemma decodeMessage_eq d s body rawMsg :
  _unescape body = Ok rawMsg ->
  _decodeMessage d s body =
    let d1 := set_stats_msgs (stats_after (stats_msgs d) rawMsg) d in
    match dispatched rawMsg with
    | None => Ok (false, d1, s)
    | Some m =>
      handler ← match return_handler d with
                | Some h => Ok h
                | None => Raise TypeError
                end;
      s' ← handler m s;
      _ ← print_message (format d) m;
      Ok (true, note_message m d1, s')
    end.
Proof.
  intros Hu. unfold _decodeMessage, stats_after, dispatched. rewrite Hu.
  cbn [mbind result_bind].
  destruct (length rawMsg <? 5) eqn:Hlen; [by destruct d|].
  apply Nat.ltb_ge in Hlen. fold (payload rawMsg) (checksum rawMsg).
  destruct rawMsg as [|t rawMsg]; [simpl in Hlen; lia|].
  assert (getitem (payload (t :: rawMsg)) 0 = Ok t) as ->.
  { unfold payload, getitem. simpl in *.
    destruct (length rawMsg - 1) eqn:E; [lia | done]. }
  cbn [mbind result_bind].
  set (crcValid := crcCheck _ _).
  set (d0 := match stats_msgs d !! t with Some _ => d | None => _ end).
  assert (dict_getitem (stats_msgs d0) t = Ok (default (0, 0) (stats_msgs d !! t))) as ->.
  { unfold dict_getitem, d0. destruct (stats_msgs d !! t) eqn:E; simpl.
    - by rewrite E.
    - by rewrite lookup_insert_eq. }
  assert (forall v, set_stats_msgs (<[t := v]> (stats_msgs d0)) d0
                    = set_stats_msgs (<[t := v]> (stats_msgs d)) d) as Hd0.
  { intros v. unfold d0. destruct (stats_msgs d !! t) eqn:E; [done|].
    destruct d; simpl. by rewrite insert_insert_eq. }
  cbn [mbind result_bind]. unfold count_update.
  destruct crcValid; cbn [negb]; [|by rewrite Hd0].
  rewrite Hd0. set (d1 := set_stats_msgs _ d).
  replace (return_handler d1) with (return_handler d) by done.
  replace (format d) with (format d1) by done.
  destruct (messageToObject _) as [[|x m]|] eqn:Em; try done.
  destruct (return_handler d) as [h|]; [|done]. cbn [mbind result_bind].
  destruct (h (x :: m) s) as [s'| |]; [|done|done]. cbn [mbind result_bind].
  by rewrite <- (after_handler_eq (x :: m) d1 s').
Qed.

Lemma note_message_with_parser m buf sy rs d :
  note_message m (with_parser buf sy rs d) = with_parser buf sy rs (note_message m d).
Proof. destruct d. unfold note_message. simpl. by repeat case_match. Qed.

Lemma decodeMessage_with_parser buf sy rs d s body :
  _decodeMessage (with_parser buf sy rs d) s body =
    '(r, d', s') ← _decodeMessage d s body; Ok (r, with_parser buf sy rs d', s').
Proof.
  destruct (unescape_total body) as [rawMsg Hu].
  rewrite !(decodeMessage_eq _ _ _ _ Hu). cbv zeta.
  destruct (dispatched rawMsg) as [m|]; [|done].
  cbn [return_handler format with_parser].
  destruct (return_handler d) as [h|]; [|done]. cbn [mbind result_bind].
  destruct (h m s); [|done|done]. cbn [mbind result_bind].
  destruct (print_message (format d) m); [|done|done]. cbn [mbind result_bind].
  by rewrite <- note_message_with_parser.
Qed.

Lemma decodeMessage_preserves d s body r d' s' :
  _decodeMessage d s body = Ok (r, d', s') ->
  inputBuffer d' = inputBuffer d /\ parserSynchronized d' = parserSynchronized d
  /\ stats_resync d' = stats_resync d /\ return_handler d' = return_handler d
  /\ stats_msgCount d' = stats_msgCount d.
Proof.
  destruct (unescape_total body) as [rawMsg Hu].
  rewrite (decodeMessage_eq _ _ _ _ Hu). cbv zeta.
  destruct (dispatched rawMsg) as [m|].
  - destruct (return_handler d) as [h|] eqn:Eh; [|done]. cbn [mbind result_bind].
    destruct (h m s); [|done|done]. cbn [mbind result_bind].
    destruct (print_message (format d) m); [|done|done]. cbn [mbind result_bind].
    intros [= <- <- <-]. rewrite <- Eh. clear Eh. destruct d. unfold note_message. simpl.
    repeat case_match; split_and!; reflexivity.
  - by intros [= <- <- <-].
Qed.


Lemma decodeMessage_set_inputBuffer buf d s body :
  _decodeMessage (set_inputBuffer buf d) s body =
    '(r, d', s') ← _decodeMessage d s body; Ok (r, set_inputBuffer buf d', s').
Proof.
  rewrite set_inputBuffer_with_parser, decodeMessage_with_parser.
  destruct (_decodeMessage d s body) as [[[r d'] s']| |] eqn:E; [|done|done].
  apply decodeMessage_preserves in E as (_ & <- & <- & _).
  done.
Qed.

Lemma decode_frames_with_parser buf sy rs bodies : forall d s,
  decode_frames (with_parser buf sy rs d) s bodies =
    '(d', s') ← decode_frames d s bodies; Ok (with_parser buf sy rs d', s').
Proof.
  induction bodies as [|body bodies IH]; intros d s; [done|].
  cbn [decode_frames]. rewrite decodeMessage_with_parser.
  destruct (_decodeMessage d s body) as [[[r d'] s']| |]; [|done|done].
  cbn [mbind result_bind]. apply IH.
Qed.

Lemma decode_frames_preserves bodies : forall d s d' s',
  decode_frames d s bodies = Ok (d', s') ->
  inputBuffer d' = inputBuffer d /\ parserSynchronized d' = parserSynchronized d
  /\ stats_resync d' = stats_resync d /\ return_handler d' = return_handler d.
Proof.
  induction bodies as [|body bodies IH]; intros d s d' s'; cbn [decode_frames].
  - by intros [= <- <-].
  - destruct (_decodeMessage d s body) as [[[r d1] s1]| |] eqn:E; [|done|done].
    cbn [mbind result_bind]. intros (-> & -> & -> & ->)%IH.
    by apply decodeMessage_preserves in E as (-> & -> & -> & -> & _).
Qed.







(** ** [_parseMessages] *)

Lemma parse_loop_frame_step fuel d s body rest :
  (FLAG ∉ body) ->
  inputBuffer d = FLAG :: body ++ FLAG :: rest ->
  parse_loop (S fuel) d s =
    ('(_, d', s') ← _decodeMessage (set_inputBuffer rest d) s body;
     parse_loop fuel d' s').
Proof.
  intros Hn Hb. cbn [parse_loop]. rewrite Hb.
  assert ((length (FLAG :: body ++ FLAG :: rest) <? 2) = false) as ->.
  { apply Nat.ltb_ge. simpl. rewrite length_app. simpl. lia. }
  cbn [getitem lookup list_lookup mbind result_bind]. unfold FLAG at 1.
  cbn [Z.eqb Pos.eqb negb mbind result_bind]. rewrite Hb.
  unfold index. cbn [drop]. rewrite drop_0, find_index_app by done.
  unfold slice. replace (1 + length body - 1) with (length body) by lia.
  cbn [drop]. rewrite drop_0, take_app_length.
  replace (1 + length body + 1) with (S (length body + 1)) by lia.
  cbn [drop]. by rewrite drop_app_add.
Qed.

Lemma parse_loop_partial fuel d s :
  0 < fuel -> partial_frame (inputBuffer d) -> parse_loop fuel d s = Ok (d, s).
Proof.
  intros Hf Hp. destruct fuel as [|fuel]; [lia|]. cbn [parse_loop].
  destruct (length (inputBuffer d) <? 2) eqn:Hl; [done|].
  apply Nat.ltb_ge in Hl.
  destruct Hp as [Hp|(p & Hp & Hn)]; rewrite Hp in *; [simpl in Hl; lia|].
  cbn [getitem lookup list_lookup mbind result_bind]. unfold FLAG at 1.
  cbn [Z.eqb Pos.eqb negb mbind result_bind]. rewrite Hp.
  unfold index. cbn [drop]. rewrite drop_0.
  apply find_index_None in Hn. unfold FLAG in Hn. by rewrite Hn.
Qed.

Lemma stream_cons body bodies : stream (body :: bodies) = frame body ++ stream bodies.
Proof. done. Qed.

Lemma parse_loop_stream bodies : forall fuel d s tail,
  Forall noise bodies -> partial_frame tail ->
  inputBuffer d = stream bodies ++ tail ->
  length (inputBuffer d) < fuel ->
  parse_loop fuel d s =
    '(d', s') ← decode_frames d s bodies; Ok (set_inputBuffer tail d', s').
Proof.
  induction bodies as [|body bodies IH]; intros fuel d s tail Hb Hp Hd Hf.
  - simpl in Hd. rewrite parse_loop_partial; [| lia | by rewrite Hd].
    cbn [decode_frames mbind result_bind]. rewrite <- Hd. by destruct d.
  - apply Forall_cons in Hb as [Hn Hb]. destruct fuel as [|fuel]; [lia|].
    rewrite stream_cons in Hd. unfold frame in Hd. cbn [app] in Hd.
    rewrite <- !(assoc_L (++)) in Hd. cbn [app] in Hd.
    rewrite (parse_loop_frame_step _ _ _ _ _ Hn Hd).
    cbn [decode_frames]. rewrite decodeMessage_set_inputBuffer.
    destruct (_decodeMessage d s body) as [[[r d1] s1]| |] eqn:E; [|done|done].
    cbn [mbind result_bind].
    rewrite (IH fuel _ s1 tail Hb Hp); [| done |].
    + rewrite set_inputBuffer_with_parser, decode_frames_with_parser.
      destruct (decode_frames d1 s1 bodies) as [[d2 s2]| |] eqn:E2; [|done|done].
      apply decode_frames_preserves in E2 as (_ & <- & <- & _). reflexivity.
    + cbn [inputBuffer set_inputBuffer]. rewrite Hd in Hf. cbn [length] in Hf.
      rewrite length_app in Hf. cbn [length] in Hf. lia.
Qed.

Lemma index_cases (l : list Z) x start :
  index l x start = Raise ValueError
  \/ exists i, index l x start = Ok i /\ start <= i < length l.
Proof.
  unfold index. destruct (find_index x (drop start l)) as [i|] eqn:E; [|by left].
  right. exists (start + i). split; [done|].
  apply find_index_lt in E. rewrite length_drop in E. lia.
Qed.

Lemma settle_length buf : length (settle buf).2 <= length buf.
Proof.
  unfold settle. destruct buf as [|b0 [|b1 r]]; simpl; try lia.
  repeat case_match; simpl; lia.
Qed.

Lemma resync_buffer_length buf : length (resync_buffer buf).2 <= length buf.
Proof.
  unfold resync_buffer. destruct buf as [|b0 [|b1 r]]; [simpl; lia | simpl; lia |].
  cbv beta iota. destruct (b0 =? 126)%Z.
  - apply (settle_length (b0 :: b1 :: r)).
  - etrans; [apply settle_length | apply (skip_to_flag_length (b0 :: b1 :: r))].
Qed.




(** ** Streams of whole frames, in any chunking *)

Lemma body_ok_noise body : body_ok body -> noise body.
Proof. by intros [_ ?]. Qed.

Lemma body_ok_head body : body_ok body -> exists x r, body = x :: r /\ x <> FLAG.
Proof.
  intros [Hne Hn]. destruct body as [|x r]; [done|]. exists x, r. split; [done|].
  intros ->. apply Hn. left.
Qed.

Lemma resync_buffer_stream bodies tail :
  Forall body_ok bodies -> partial_frame tail ->
  resync_buffer (stream bodies ++ tail)
  = (negb (length (stream bodies ++ tail) <? 2), stream bodies ++ tail).
Proof.
  intros Hb Hp. destruct bodies as [|body bodies].
  - simpl. destruct Hp as [->|(p & -> & Hn)]; [done|].
    destruct p as [|x p]; [done|]. apply not_elem_of_cons in Hn as [Hx _].
    unfold resync_buffer, settle, FLAG in *. simpl.
    destruct (Z.eqb_spec x 126); [congruence | done].
  - apply Forall_cons in Hb as [(x & r & -> & Hx)%body_ok_head _].
    unfold resync_buffer, settle, FLAG in *. simpl.
    destruct (Z.eqb_spec x 126); [congruence | done].
Qed.

Lemma stream_length_short bodies tail :
  Forall body_ok bodies -> length (stream bodies ++ tail) < 2 -> bodies = [].
Proof.
  intros Hb Hl. destruct bodies as [|body bodies]; [done|].
  apply Forall_cons in Hb as [(x & r & -> & Hx)%body_ok_head _].
  simpl in Hl. lia.
Qed.

Lemma parseMessages_stream bodies tail sy0 rs0 :
  Forall body_ok bodies -> partial_frame tail ->
  exists sy rs, forall d s,
    inputBuffer d = stream bodies ++ tail ->
    parserSynchronized d = sy0 -> stats_resync d = rs0 ->
    _parseMessages d s =
      ('(d', s') ← decode_frames d s bodies; Ok (with_parser tail sy rs d', s')).
Proof.
  intros Hb Hp.
  assert (Forall noise bodies) as Hn by (eapply Forall_impl; [done | apply body_ok_noise]).
  destruct sy0.
  - exists true, rs0. intros d s Hd Hsy Hrs. unfold _parseMessages. rewrite Hsy.
    cbn [negb]. rewrite (parse_loop_stream bodies _ d s tail Hn Hp Hd); [|lia].
    destruct (decode_frames d s bodies) as [[d' s']| |] eqn:E; [|done|done].
    apply decode_frames_preserves in E as (_ & E1 & E2 & _).
    cbn [mbind result_bind]. unfold set_inputBuffer, with_parser.
    by rewrite E1, E2, Hsy, Hrs.
  - exists (negb (length (stream bodies ++ tail) <? 2)), (rs0 + 1).
    intros d s Hd Hsy Hrs. unfold _parseMessages. rewrite Hsy. cbn [negb].
    rewrite resynchronizeParser_eq, Hd, Hrs, (resync_buffer_stream _ _ Hb Hp).
    cbn [fst snd mbind result_bind]. rewrite negb_involutive.
    destruct (length (stream bodies ++ tail) <? 2) eqn:Hl.
    + apply Nat.ltb_lt in Hl. rewrite (stream_length_short _ _ Hb Hl). done.
    + cbn [negb]. erewrite (parse_loop_stream bodies _ _ s tail Hn Hp); [| done |].
      * rewrite decode_frames_with_parser.
        destruct (decode_frames d s bodies) as [[d' s']| |]; done.
      * cbn [inputBuffer with_parser]. lia.
Qed.

Lemma partial_frame_prefix l1 l2 : partial_frame (l1 ++ l2) -> partial_frame l1.
Proof.
  intros [Hp|(p & Hp & Hn)].
  - left. by apply app_eq_nil in Hp as [-> _].
  - destruct l1 as [|x l1]; [by left|]. right. simpl in Hp.
    injection Hp as -> <-. exists l1. split; [done|].
    by apply not_elem_of_app in Hn as [? _].
Qed.

Lemma partial_frame_no_frame l bodies tail :
  partial_frame l -> l = stream bodies ++ tail -> bodies = [].
Proof.
  intros Hp Hl. destruct bodies as [|body bodies]; [done|]. exfalso.
  rewrite stream_cons in Hl. unfold frame in Hl. cbn [app] in Hl.
  rewrite <- !(assoc_L (++)) in Hl. cbn [app] in Hl.
  destruct Hp as [->|(p & -> & Hn)]; [done|].
  injection Hl as ->. apply Hn. apply elem_of_app. right. left.
Qed.

Lemma frame_prefix_partial body l k :
  (FLAG ∉ body) -> k <> [] -> frame body = l ++ k -> partial_frame l.
Proof.
  intros Hn Hk Hf. destruct l as [|x l]; [by left|]. right.
  unfold frame in Hf. simpl in Hf. injection Hf as <- Hf. exists l. split; [done|].
  destruct (app_eq_inv _ _ _ _ Hf) as [(k' & -> & Hk')|(k' & -> & Hk')].
  { by apply not_elem_of_app in Hn as [? _]. }
  destruct k' as [|y k']; [by rewrite app_nil_r|].
  assert (length [FLAG] = length ((y :: k') ++ k)) as Hlen by by rewrite Hk'.
  rewrite length_app in Hlen. simpl in Hlen. destruct k; [done | simpl in Hlen; lia].
Qed.

Lemma aligned_prefix bodies : forall tail l1 l2,
  Forall noise bodies -> partial_frame tail ->
  l1 ++ l2 = stream bodies ++ tail ->
  exists b1 b2 t1,
    bodies = b1 ++ b2 /\ partial_frame t1
    /\ l1 = stream b1 ++ t1 /\ t1 ++ l2 = stream b2 ++ tail.
Proof.
  induction bodies as [|body bodies IH]; intros tail l1 l2 Hb Hp Hl.
  - exists [], [], l1. simpl in *. split_and!; [done | | done | done].
    apply (partial_frame_prefix l1 l2). by rewrite Hl.
  - apply Forall_cons in Hb as [Hn Hb].
    rewrite stream_cons, <- (assoc_L (++)) in Hl.
    destruct (app_eq_inv _ _ _ _ Hl) as [(k & -> & Hk)|(k & Hk & ->)].
    + destruct (IH tail k l2 Hb Hp (eq_sym Hk)) as (b1 & b2 & t1 & -> & Ht1 & -> & Ht).
      exists (body :: b1), b2, t1. split_and!; [done | done | | done].
      by rewrite stream_cons, (assoc_L (++)).
    + destruct k as [|y k].
      * rewrite app_nil_r in Hk. subst l1.
        exists [body], bodies, []. split_and!; [done | by left | | done].
        by rewrite stream_cons, !app_nil_r.
      * exists [], (body :: bodies), l1. split_and!; [done | | done |].
        -- by apply (frame_prefix_partial body l1 (y :: k)).
        -- by rewrite stream_cons, (assoc_L (++) l1), <- Hk, <- (assoc_L (++)).
Qed.

Lemma decode_frames_app b1 b2 : forall d s,
  decode_frames d s (b1 ++ b2) =
    ('(d', s') ← decode_frames d s b1; decode_frames d' s' b2).
Proof.
  induction b1 as [|body b1 IH]; intros d s; [done|].
  cbn [app decode_frames].
  destruct (_decodeMessage d s body) as [[[r d1] s1]| |]; [|done|done].
  cbn [mbind result_bind]. apply IH.
Qed.

Lemma feed_stream chunks : forall bodies tail buf0 sy0 rs0,
  Forall body_ok bodies -> partial_frame tail -> partial_frame buf0 ->
  buf0 ++ concat chunks = stream bodies ++ tail ->
  exists sy rs, forall d s,
    inputBuffer d = buf0 -> parserSynchronized d = sy0 -> stats_resync d = rs0 ->
    feed d s chunks =
      ('(d', s') ← decode_frames d s bodies; Ok (with_parser tail sy rs d', s')).
Proof.
  induction chunks as [|c chunks IH]; intros bodies tail buf0 sy0 rs0 Hb Hp Hp0 Hl.
  - simpl in Hl. rewrite app_nil_r in Hl.
    pose proof (partial_frame_no_frame _ _ _ Hp0 Hl) as ->. simpl in Hl. subst buf0.
    exists sy0, rs0. intros d s <- <- <-. cbn [feed decode_frames mbind result_bind].
    by rewrite with_parser_id.
  - assert (Forall noise bodies) as Hn
      by (eapply Forall_impl; [done | apply body_ok_noise]).
    cbn [concat] in Hl. rewrite (assoc_L (++)) in Hl.
    destruct (aligned_prefix bodies tail _ _ Hn Hp Hl)
      as (b1 & b2 & t1 & -> & Ht1 & Hb1 & Hb2).
    apply Forall_app in Hb as [Hok1 Hok2].
    destruct (parseMessages_stream b1 t1 sy0 rs0 Hok1 Ht1) as (sy1 & rs1 & HP).
    destruct (IH b2 tail t1 sy1 rs1 Hok2 Hp Ht1 Hb2) as (sy & rs & HF).
    exists sy, rs. intros d s Hd Hsy Hrs. cbn [feed]. unfold addBytes.
    rewrite (HP (set_inputBuffer (inputBuffer d ++ c) d) s); [| by rewrite Hd | done | done].
    rewrite set_inputBuffer_with_parser, decode_frames_with_parser, decode_frames_app.
    destruct (decode_frames d s b1) as [[d1 s1]| |]; [|done|done].
    cbn [mbind result_bind]. rewrite with_parser_with_parser.
    rewrite (HF (with_parser t1 sy1 rs1 d1) s1); [| done..].
    rewrite decode_frames_with_parser.
    destruct (decode_frames d1 s1 b2) as [[d2 s2]| |]; done.
Qed.

Lemma feed_singleton d s (data : list Z) : feed d s [data] = addBytes d s data.
Proof. cbn [feed]. by destruct (addBytes d s data) as [[d' s']| |]. Qed.

Lemma stream_chunks_decode d s bodies chunks :
  inputBuffer d = [] -> Forall body_ok bodies ->
  concat chunks = stream bodies ->
  exists sy rs,
    feed d s chunks =
      ('(d', s') ← decode_frames d s bodies; Ok (with_parser [] sy rs d', s')).
Proof.
  intros Hd Hb Hc.
  destruct (feed_stream chunks bodies [] [] (parserSynchronized d) (stats_resync d))
    as (sy & rs & HF); [done | by left | by left | by rewrite app_nil_r | ].
  exists sy, rs. by apply HF.
Qed.

(** C3. For a stream of whole frames (each escaped body not empty, free of
    the delimiter, between its own two delimiters) fed to a decoder with an
    empty buffer, every way of cutting the bytes into [addBytes] calls (one
    byte per call, a frame in two halves, any other chunking) and the single
    call with the whole stream do the same thing: each hands to
    [_decodeMessage] exactly the bodies of the stream, in stream order.  So
    the handler is called on the same messages in the same order, the two
    runs end with the same sink and the same statistics, or raise the same
    exception at the same frame; they differ at most in the parser's own
    synchronisation flag and resync counter. *)
Theorem chunking_independence d s (bodies chunks : list (list Z)) :
  inputBuffer d = [] -> Forall body_ok bodies ->
  concat chunks = stream bodies ->
  exists sy1 rs1 sy2 rs2,
    feed d s chunks =
      ('(d', s') ← decode_frames d s bodies; Ok (with_parser [] sy1 rs1 d', s'))
    /\ addBytes d s (stream bodies) =
         ('(d', s') ← decode_frames d s bodies; Ok (with_parser [] sy2 rs2 d', s')).
Proof.
  intros Hd Hb Hc.
  destruct (stream_chunks_decode d s bodies chunks Hd Hb Hc) as (sy1 & rs1 & E1).
  destruct (stream_chunks_decode d s bodies [stream bodies] Hd Hb) as (sy2 & rs2 & E2).
  { simpl. by rewrite app_nil_r. }
  rewrite feed_singleton in E2. by exists sy1, rs1, sy2, rs2.
Qed.



(** C2, as the code has it.  A frame that is long enough (five bytes or
    more once unescaped) and whose checksum does not match leaves the sink
    untouched, adds exactly one to the CRC-failure count of its type id,
    the first byte of the unescaped frame (the entry starts from (0, 0)
    when the type id was not seen before), and changes no other counter.
    A shorter frame never reaches the checksum. *)
Theorem crc_mismatch_counts_one_failure d s (body rawMsg : list Z) :
  _unescape body = Ok rawMsg -> 5 <= length rawMsg ->
  crcCheck (payload rawMsg) (checksum rawMsg) = false ->
  exists t d',
    payload rawMsg !! 0 = Some t
    /\ _decodeMessage d s body = Ok (false, d', s)
    /\ stats_msgs d' !! t
       = Some ((default (0, 0) (stats_msgs d !! t)).1,
               (default (0, 0) (stats_msgs d !! t)).2 + 1)
    /\ (forall k, k <> t -> stats_msgs d' !! k = stats_msgs d !! k)
    /\ stats_resync d' = stats_resync d
    /\ stats_msgCount d' = stats_msgCount d.
Proof.
  intros Hu Hlen Hcrc. rewrite (decodeMessage_eq _ _ _ _ Hu).
  unfold dispatched, stats_after. rewrite Hcrc.
  apply Nat.ltb_ge in Hlen as Hlt. rewrite Hlt.
  destruct rawMsg as [|t rawMsg]; [simpl in Hlen; lia|].
  exists t, (set_stats_msgs
               (<[t := count_update false (default (0, 0) (stats_msgs d !! t))]>
                  (stats_msgs d)) d).
  split_and!; try done.
  - unfold payload. simpl in *. by destruct (length rawMsg - 1) eqn:E; [lia|].
  - cbn [stats_msgs set_stats_msgs]. by rewrite lookup_insert_eq.
  - intros k Hk. cbn [stats_msgs set_stats_msgs]. by rewrite lookup_insert_ne.
Qed.


(** C6, as the code has it.  A frame that ends in an escape byte with
    nothing after it is not rejected by [_unescape]: the call returns, and
    the escape byte is the last byte of what it returns.  The frame then
    goes through the same checks as any other frame.  When what was
    returned is shorter than five bytes the frame is dropped, nothing is
    counted and the sink is not called; when it is longer and fails the
    CRC check, one CRC failure is counted for the type id in its first
    byte and the sink is not called.  There is no bucket for malformed
    frames. *)
Theorem dangling_escape_frame_is_not_special d s (body : list Z) :
  dangling_escape body = true ->
  exists raw,
    _unescape body = Ok (raw ++ [0x7d%Z])
    /\ (length (raw ++ [0x7d%Z]) < 5 -> _decodeMessage d s body = Ok (false, d, s))
    /\ (5 <= length (raw ++ [0x7d%Z]) ->
        crcCheck (payload (raw ++ [0x7d%Z])) (checksum (raw ++ [0x7d%Z])) = false ->
        exists t, raw !! 0 = Some t
          /\ _decodeMessage d s body
             = Ok (false,
                   set_stats_msgs
                     (<[ t := ((default (0, 0) (stats_msgs d !! t)).1,
                               (default (0, 0) (stats_msgs d !! t)).2 + 1) ]>
                        (stats_msgs d)) d,
                   s)).
Proof.
  intros Hd.
  destruct (unescape_loop_dangling (S (length body)) body [] false Hd) as [raw Hu]; [lia|].
  fold (_unescape body) in Hu. exists raw. split_and!; [done | |].
  - intros Hlen. apply Nat.ltb_lt in Hlen.
    rewrite (decodeMessage_eq _ _ _ _ Hu). unfold dispatched, stats_after.
    rewrite Hlen. by destruct d.
  - intros Hlen Hcrc. apply Nat.ltb_ge in Hlen as Hlt.
    destruct raw as [|t raw]; [simpl in Hlen; lia|]. exists t. split; [done|].
    rewrite (decodeMessage_eq _ _ _ _ Hu). unfold dispatched, stats_after.
    by rewrite Hlt, Hcrc.
Qed.

(** ** Noise and lost synchronisation *)

Lemma skip_to_flag_noise buf : noise buf -> skip_to_flag buf = [].
Proof. intros Hn. unfold skip_to_flag. by apply find_index_None in Hn as ->. Qed.

Lemma skip_to_flag_app a r : noise a -> skip_to_flag (a ++ FLAG :: r) = FLAG :: r.
Proof.
  intros Hn. unfold skip_to_flag. rewrite find_index_app by done.
  by rewrite <- (Nat.add_0_r (length a)), drop_app_add.
Qed.

Lemma resync_buffer_noise buf :
  noise buf -> resync_buffer buf = (false, if length buf <? 2 then buf else []).
Proof.
  intros Hn. unfold resync_buffer. destruct buf as [|b0 [|b1 r]]; [done | done |].
  assert (b0 <> FLAG) as Hb by (intros ->; apply Hn; left).
  unfold FLAG in Hb. destruct (Z.eqb_spec b0 126); [done|].
  by rewrite skip_to_flag_noise.
Qed.

Lemma addBytes_noise d s (c : list Z) :
  parserSynchronized d = false -> noise (inputBuffer d ++ c) ->
  addBytes d s c =
    Ok (with_parser (if length (inputBuffer d ++ c) <? 2 then inputBuffer d ++ c else [])
                    false (stats_resync d + 1) d, s).
Proof.
  intros Hsy Hn. unfold addBytes, _parseMessages.
  cbn [parserSynchronized set_inputBuffer]. rewrite Hsy. cbn [negb].
  rewrite resynchronizeParser_eq. cbn [inputBuffer stats_resync set_inputBuffer].
  rewrite (resync_buffer_noise _ Hn). cbn [fst snd mbind result_bind negb]. done.
Qed.

Lemma feed_noise chunks : forall buf0 rs0,
  noise buf0 -> length buf0 <= 1 -> Forall noise chunks ->
  exists buf, noise buf /\ length buf <= 1 /\
    forall d s,
      inputBuffer d = buf0 -> parserSynchronized d = false -> stats_resync d = rs0 ->
      feed d s chunks = Ok (with_parser buf false (rs0 + length chunks) d, s).
Proof.
  induction chunks as [|c chunks IH]; intros buf0 rs0 Hn0 Hl0 Hc.
  - exists buf0. split_and!; [done | done |]. intros d s <- <- <-.
    cbn [feed length]. by rewrite Nat.add_0_r, with_parser_id.
  - apply Forall_cons in Hc as [Hc Hcs].
    set (buf1 := if length (buf0 ++ c) <? 2 then buf0 ++ c else []).
    assert (noise (buf0 ++ c)) as Hn by by apply not_elem_of_app.
    assert (noise buf1 /\ length buf1 <= 1) as [Hn1 Hl1].
    { unfold buf1. destruct (length (buf0 ++ c) <? 2) eqn:E.
      - apply Nat.ltb_lt in E. split; [done | lia].
      - split; [apply not_elem_of_nil | simpl; lia]. }
    destruct (IH buf1 (rs0 + 1) Hn1 Hl1 Hcs) as (buf & Hnb & Hlb & HF).
    exists buf. split_and!; [done | done |]. intros d s Hd Hsy Hrs.
    cbn [feed]. rewrite addBytes_noise; [| done | by rewrite Hd].
    cbn [mbind result_bind]. rewrite Hd, Hrs. fold buf1.
    rewrite (HF (with_parser buf1 false (rs0 + 1) d) s); [| done..].
    rewrite with_parser_with_parser. cbn [length]. do 3 f_equal. lia.
Qed.

Lemma feed_app c1 c2 : forall d s,
  feed d s (c1 ++ c2) = ('(d', s') ← feed d s c1; feed d' s' c2).
Proof.
  induction c1 as [|c c1 IH]; intros d s; [done|]. cbn [app feed].
  destruct (addBytes d s c) as [[d1 s1]| |]; [|done|done].
  cbn [mbind result_bind]. apply IH.
Qed.

Lemma resync_buffer_noise_frame buf body :
  noise buf -> length buf <= 1 -> body_ok body ->
  resync_buffer (buf ++ frame body) = (true, frame body).
Proof.
  intros Hn Hl (x & r & -> & Hx)%body_ok_head. unfold FLAG in Hx.
  destruct buf as [|y [|? ?]]; [| | simpl in Hl; lia].
  - unfold resync_buffer, settle, frame, FLAG. simpl.
    destruct (Z.eqb_spec x 126); done.
  - assert (y <> FLAG) as Hy by (intros ->; apply Hn; left). unfold FLAG in Hy.
    unfold resync_buffer, frame. cbn [app]. destruct (Z.eqb_spec y 126); [done|].
    pose proof (skip_to_flag_app [y] (x :: r ++ [FLAG]) Hn) as Hs.
    cbn [app] in Hs. rewrite Hs.
    unfold settle, FLAG. simpl. destruct (Z.eqb_spec x 126); done.
Qed.

(** C7, as the code has it.  Fed to a decoder that is not synchronised
    and whose buffer is empty, a run of bytes without any delimiter causes
    no sink call and no statistics update, and the resync counter grows by
    one for every [addBytes] call the run is delivered in (the counter is
    bumped once per call made while unsynchronised, not once per run of
    noise); at most one byte of the run stays in the buffer.  A frame fed
    next bumps the counter once more, gets the parser synchronised, and is
    decoded as if the noise had not been there. *)
Theorem noise_then_frame d s (chunks : list (list Z)) (body : list Z) r d1 s1 :
  parserSynchronized d = false -> inputBuffer d = [] ->
  Forall noise chunks -> body_ok body ->
  _decodeMessage d s body = Ok (r, d1, s1) ->
  (exists buf,
     noise buf /\ length buf <= 1
     /\ feed d s chunks
        = Ok (with_parser buf false (stats_resync d + length chunks) d, s))
  /\ feed d s (chunks ++ [frame body])
     = Ok (with_parser [] true (stats_resync d + length chunks + 1) d1, s1).
Proof.
  intros Hsy Hd Hc Hb E.
  destruct (feed_noise chunks [] (stats_resync d)) as (buf & Hn & Hl & HF);
    [apply not_elem_of_nil | simpl; lia | done |].
  specialize (HF d s Hd Hsy eq_refl). split; [by exists buf|].
  rewrite feed_app, HF. cbn [mbind result_bind]. rewrite feed_singleton.
  unfold addBytes, _parseMessages.
  cbn [inputBuffer parserSynchronized with_parser set_inputBuffer negb].
  rewrite resynchronizeParser_eq.
  cbn [inputBuffer parserSynchronized stats_resync with_parser set_inputBuffer].
  rewrite (resync_buffer_noise_frame _ _ Hn Hl Hb). cbn [fst snd mbind result_bind negb].
  assert (Forall noise [body]) as Hnb
    by (constructor; [by apply body_ok_noise | constructor]).
  assert (frame body = stream [body] ++ []) as Hst
    by (unfold stream; cbn [fmap list_fmap concat]; by rewrite !app_nil_r).
  rewrite (parse_loop_stream [body] _ _ s [] Hnb); [| by left | done | ].
  - cbn [decode_frames].
    rewrite set_inputBuffer_with_parser, !with_parser_with_parser.
    rewrite decodeMessage_with_parser, E. done.
  - cbn [inputBuffer with_parser]. lia.
Qed.

Lemma resync_buffer_lost body :
  body_ok body -> resync_buffer (body ++ [FLAG]) = (false, [FLAG]).
Proof.
  intros Hb. destruct (body_ok_head _ Hb) as (x & r & -> & Hx). unfold FLAG in Hx.
  unfold resync_buffer. cbn [app].
  destruct Hb as [_ Hn].
  destruct r as [|y r]; cbn [app]; (destruct (Z.eqb_spec x 126); [done|]).
  - pose proof (skip_to_flag_app [x] [] Hn) as Hs. cbn [app] in Hs. by rewrite Hs.
  - pose proof (skip_to_flag_app (x :: y :: r) [] Hn) as Hs. cbn [app] in Hs.
    by rewrite Hs.
Qed.

(** C10. In a synchronised decoder whose buffer holds two frames with one
    delimiter between them (delimiter, first body, delimiter, second body,
    delimiter, the second body not empty and both free of the delimiter),
    only the first frame reaches [_decodeMessage]: taking the first frame
    out consumes the middle delimiter, the second body then counts as
    loss of synchronisation, its bytes are thrown away, the resync counter
    grows by one and the parser ends unsynchronised with the last
    delimiter alone in the buffer.  Decoder and sink are otherwise as the
    first frame left them, so the sink is never called for the second. *)
Theorem shared_delimiter_drops_second_frame d s (body1 body2 : list Z) r d1 s1 :
  parserSynchronized d = true ->
  inputBuffer d = FLAG :: body1 ++ FLAG :: body2 ++ [FLAG] ->
  noise body1 -> body_ok body2 ->
  _decodeMessage d s body1 = Ok (r, d1, s1) ->
  _parseMessages d s = Ok (with_parser [FLAG] false (stats_resync d + 1) d1, s1).
Proof.
  intros Hsy Hd Hn1 Hb2 E. unfold _parseMessages. rewrite Hsy. cbn [negb].
  rewrite (parse_loop_frame_step _ _ _ _ _ Hn1 Hd), decodeMessage_set_inputBuffer, E.
  cbn [mbind result_bind].
  apply decodeMessage_preserves in E as (_ & _ & Hrs & _).
  destruct (body_ok_head _ Hb2) as (x & r2 & Hx & Hne). unfold FLAG in Hne.
  rewrite Hd. cbn [length]. rewrite length_app. cbn [length parse_loop].
  cbn [inputBuffer set_inputBuffer].
  assert ((length (body2 ++ [FLAG]) <? 2) = false) as ->.
  { apply Nat.ltb_ge. rewrite Hx. simpl. rewrite length_app. simpl. lia. }
  rewrite Hx at 1. cbn [app getitem lookup list_lookup mbind result_bind].
  destruct (Z.eqb_spec x 126); [done|]. cbn [negb].
  rewrite resynchronizeParser_eq. cbn [inputBuffer set_inputBuffer stats_resync].
  rewrite (resync_buffer_lost _ Hb2). cbn [fst snd mbind result_bind negb].
  by rewrite Hrs.
Qed.

End DecoderFacts.

(** ** The handler of [gdl90.py] *)

Section HandlerFacts.
Context {Bus : Type}.
Implicit Types (self : GDL90PubSub Bus) (m : Message).

(** what the handler does with a Heartbeat that has the attribute it
    reads: the value becomes the stored timestamp *)
Lemma GDL_return_stores_Timestamp senddata self m ts :
  lookup_field m "MsgType" = Some (VStr "Heartbeat") ->
  lookup_field m "Timestamp" = Some ts ->
  _GDL_return senddata m self = Ok (mkGDL90PubSub ts (bus self)).
Proof.
  intros Hty Hts. unfold _GDL_return, getattr. rewrite Hty. cbn. by rewrite Hts.
Qed.

(** what it does with a Traffic Report when [self._senddata] exists: the
    dictionary handed over holds the stored timestamp under ["time"] *)
Lemma GDL_return_publishes_time senddata self m :
  lookup_field m "MsgType" = Some (VStr "TrafficReport") ->
  forallb (hasattr m) ["VVelocity"; "Altitude"; "Address"; "HVelocity";
                       "TrackHeading"; "Latitude"; "Longitude"; "CallSign"]%string
    = true ->
  exists publish_dict : gmap string Value,
    publish_dict !! "time"%string = Some (current_gdl_timestamp self)
    /\ _GDL_return (Some senddata) m self
       = (b ← senddata publish_dict (bus self);
          Ok (mkGDL90PubSub (current_gdl_timestamp self) b)).
Proof.
  intros Hty Hf. simpl in Hf.
  repeat (apply andb_true_iff in Hf as [?%hasattr_lookup Hf]).
  repeat match goal with Hx : exists v, _ |- _ => destruct Hx as [? Hx] end.
  unfold _GDL_return, getattr. rewrite Hty. cbn.
  repeat match goal with Hx : lookup_field _ _ = _ |- _ => rewrite Hx; clear Hx end.
  cbn. eexists. split; [|reflexivity].
  by repeat (rewrite lookup_insert_ne by done); rewrite lookup_insert_eq.
Qed.

(** C9, at the failing input.  A Heartbeat as the decoder reads it has
    the attribute [TimeStamp]; the handler asks for [Timestamp], so the
    call raises before anything is stored. *)
Theorem GDL_return_heartbeat_raises senddata self (s1 s2 ts : Z) (counts : list Z) :
  _GDL_return senddata (Heartbeat_message s1 s2 ts counts) self
  = Raise (AttributeError "Timestamp").
Proof. reflexivity. Qed.

(** the same through the decoder: the frame of the interface
    specification's example Heartbeat makes [addBytes] raise *)
Lemma addBytes_heartbeat_raises senddata (b : Bus) (utcnow : Z) :
  addBytes (addReturnHandler (_GDL_return senddata) (Decoder_init utcnow))
           (GDL90PubSub_init b) (frame (sealed example_heartbeat))
  = Raise (AttributeError "Timestamp").
Proof. vm_compute. reflexivity. Qed.

(** with no [_senddata] on the object, a Traffic Report raises as well,
    after the dictionary has been built *)
Lemma GDL_return_traffic_raises self :
  _GDL_return None example_traffic self = Raise (AttributeError "_senddata").
Proof. reflexivity. Qed.

End HandlerFacts.

(** ** The theorems at concrete inputs *)

Ltac by_decide := apply (bool_decide_unpack _); vm_compute; exact I.





(** a frame of four bytes, type id 9, one data byte and a checksum that
    does not match: dropped before the checksum is looked at, and no
    failure is counted (the decoder is as it was, with no entry for type
    id 9) *)
Lemma short_corrupted_frame_is_not_counted :
  _unescape [9; 1; 0; 0]%Z = Ok [9; 1; 0; 0]%Z
  /\ crcCheck (payload [9; 1; 0; 0]%Z) (checksum [9; 1; 0; 0]%Z) = false
  /\ _decodeMessage recording_decoder [] [9; 1; 0; 0]%Z = Ok (false, recording_decoder, [])
  /\ stats_msgs recording_decoder !! 9%Z = None.
Proof. split_and!; vm_compute; reflexivity. Qed.

Lemma crc_mismatch_counts_one_failure_witness :
  _unescape corrupted_A = Ok corrupted_A
  /\ 5 <= length corrupted_A
  /\ crcCheck (payload corrupted_A) (checksum corrupted_A) = false
  /\ exists t d',
      payload corrupted_A !! 0 = Some t
      /\ _decodeMessage recording_decoder [] corrupted_A = Ok (false, d', [])
      /\ stats_msgs d' !! t
         = Some ((default (0, 0) (stats_msgs recording_decoder !! t)).1,
                 (default (0, 0) (stats_msgs recording_decoder !! t)).2 + 1)
      /\ (forall k, k <> t -> stats_msgs d' !! k = stats_msgs recording_decoder !! k)
      /\ stats_resync d' = stats_resync recording_decoder
      /\ stats_msgCount d' = stats_msgCount recording_decoder.
Proof.
  split_and!; [reflexivity | vm_compute; lia | reflexivity |].
  apply (crc_mismatch_counts_one_failure recording_decoder [] corrupted_A corrupted_A);
    [reflexivity | vm_compute; lia | reflexivity].
Defined.

Lemma three_bodies_ok : Forall body_ok [frame_A; frame_B; frame_C].
Proof. repeat constructor; try done; by_decide. Qed.

Lemma chunking_independence_witness :
  exists sy1 rs1 sy2 rs2,
    feed recording_decoder [] ((fun b => [b]) <$> stream [frame_A; frame_B; frame_C]) =
      ('(d', s') ← decode_frames recording_decoder [] [frame_A; frame_B; frame_C];
       Ok (with_parser [] sy1 rs1 d', s'))
    /\ addBytes recording_decoder [] (stream [frame_A; frame_B; frame_C]) =
         ('(d', s') ← decode_frames recording_decoder [] [frame_A; frame_B; frame_C];
          Ok (with_parser [] sy2 rs2 d', s')).
Proof.
  apply (chunking_independence recording_decoder []);
    [reflexivity | apply three_bodies_ok | vm_compute; reflexivity].
Defined.



(** the frame made of one escape byte: [_unescape] returns it, the frame is
    dropped for its length and nothing is counted; and a longer frame with a
    dangling escape is counted as a CRC failure of type id 0, the
    Heartbeat's *)
Lemma lone_escape_frame_is_not_counted :
  dangling_escape [0x7d]%Z = true
  /\ _unescape [0x7d]%Z = Ok [0x7d]%Z
  /\ _decodeMessage recording_decoder [] [0x7d]%Z = Ok (false, recording_decoder, [])
  /\ dangling_escape [0; 1; 2; 0x7d]%Z = true
  /\ _decodeMessage recording_decoder [] [0; 1; 2; 0x7d]%Z
     = Ok (false, set_stats_msgs {[ 0%Z := (0, 1) ]} recording_decoder, []).
Proof. split_and!; vm_compute; reflexivity. Qed.

Lemma dangling_escape_frame_is_not_special_witness :
  dangling_escape [0; 1; 2; 0x7d]%Z = true
  /\ exists raw,
      _unescape [0; 1; 2; 0x7d]%Z = Ok (raw ++ [0x7d%Z])
      /\ (length (raw ++ [0x7d%Z]) < 5
          -> _decodeMessage recording_decoder [] [0; 1; 2; 0x7d]%Z
             = Ok (false, recording_decoder, []))
      /\ (5 <= length (raw ++ [0x7d%Z]) ->
          crcCheck (payload (raw ++ [0x7d%Z])) (checksum (raw ++ [0x7d%Z])) = false ->
          exists t, raw !! 0 = Some t
            /\ _decodeMessage recording_decoder [] [0; 1; 2; 0x7d]%Z
               = Ok (false,
                     set_stats_msgs
                       (<[ t := ((default (0, 0) (stats_msgs recording_decoder !! t)).1,
                                 (default (0, 0) (stats_msgs recording_decoder !! t)).2 + 1) ]>
                          (stats_msgs recording_decoder)) recording_decoder,
                     [])).
Proof.
  split; [reflexivity|].
  apply (dangling_escape_frame_is_not_special recording_decoder [] [0; 1; 2; 0x7d]%Z).
  reflexivity.
Defined.

(** one run of six bytes without a delimiter, delivered in two calls: the
    resync counter ends at 2; delivered in one call, at 1 *)
Lemma chunked_noise_is_counted_per_call :
  (exists d', feed recording_decoder [] [[1; 2; 3]; [4; 5; 6]]%Z = Ok (d', [])
              /\ stats_resync d' = 2)
  /\ (exists d', feed recording_decoder [] [[1; 2; 3; 4; 5; 6]]%Z = Ok (d', [])
                 /\ stats_resync d' = 1).
Proof. split; eexists; (split; [vm_compute; reflexivity | reflexivity]). Qed.

Lemma noise_then_frame_witness :
  (exists buf,
     noise buf /\ length buf <= 1
     /\ feed recording_decoder [] [[1; 2; 3]; [4; 5; 6]; [7]]%Z
        = Ok (with_parser buf false (stats_resync recording_decoder + 3)
                          recording_decoder, []))
  /\ feed recording_decoder [] ([[1; 2; 3]; [4; 5; 6]; [7]]%Z ++ [frame frame_A])
     = Ok (with_parser [] true (stats_resync recording_decoder + 3 + 1)
                       recording_decoder_after_A, [message_A]).
Proof.
  apply (noise_then_frame recording_decoder [] [[1; 2; 3]; [4; 5; 6]; [7]]%Z frame_A true);
    [reflexivity | reflexivity | repeat constructor; by_decide
     | split; [done | by_decide] | vm_compute; reflexivity].
Defined.

Lemma shared_delimiter_drops_second_frame_witness :
  _parseMessages
    (set_parserSynchronized true
       (set_inputBuffer (FLAG :: frame_A ++ FLAG :: frame_B ++ [FLAG]) recording_decoder))
    []
  = Ok (with_parser [FLAG] false 1 recording_decoder_after_A, [message_A]).
Proof.
  apply (shared_delimiter_drops_second_frame
           (set_parserSynchronized true
              (set_inputBuffer (FLAG :: frame_A ++ FLAG :: frame_B ++ [FLAG])
                               recording_decoder))
           [] frame_A frame_B true
           (with_parser (FLAG :: frame_A ++ FLAG :: frame_B ++ [FLAG]) true 0
                        recording_decoder_after_A));
    [reflexivity | reflexivity | by_decide | split; [done | by_decide]
     | vm_compute; reflexivity].
Defined.

(** ** More on [_unescape] *)

Lemma unstuff_app a l : 0x7d%Z ∉ a -> unstuff (a ++ l) = a ++ unstuff l.
Proof.
  induction a as [|b a IH]; intros Hn; [done|].
  apply not_elem_of_cons in Hn as [Hb Ha]. simpl.
  destruct (Z.eqb_spec b 0x7d); [congruence | by rewrite IH].
Qed.

Lemma unstuff_no_escape a : 0x7d%Z ∉ a -> unstuff a = a.
Proof. intros Hn. rewrite <- (app_nil_r a) at 1. by rewrite unstuff_app, app_nil_r. Qed.

Lemma unstuff_length : forall n msg, length msg < n -> length (unstuff msg) <= length msg.
Proof.
  induction n as [|n IH]; intros msg Hn; [lia|].
  destruct msg as [|b [|c r]]; simpl in *; [lia | by destruct (b =? 125)%Z; simpl; lia |].
  destruct (b =? 125)%Z; simpl.
  - specialize (IH r ltac:(lia)). lia.
  - specialize (IH (c :: r) ltac:(simpl; lia)). simpl in IH. lia.
Qed.

Lemma unescape_loop_unstuff fuel : forall msg msgNew found,
  dangling_escape msg = false -> length msg < fuel ->
  (found = true \/ msgNew = []) ->
  unescape_loop fuel msg msgNew found = Ok (msgNew ++ unstuff msg).
Proof.
  induction fuel as [|fuel IH]; intros msg msgNew found Hd Hf Hfound; [lia|].
  simpl. destruct (index_0_inv msg 0x7d) as [(a & r & -> & Hn & ->)|[Hn ->]].
  - rewrite getitem_app_r, slice_0_app. rewrite dangling_escape_app in Hd by done.
    rewrite unstuff_app by done.
    destruct r as [|c r]; simpl in *; [done|].
    rewrite (drop_app_add a (_ :: _ :: _) 2). simpl. rewrite drop_0.
    rewrite IH; [| done | | by left].
    + by rewrite <- !(assoc_L (++)).
    + rewrite length_app in Hf. simpl in Hf. lia.
  - rewrite unstuff_no_escape by done.
    destruct Hfound as [->| ->]; [done | by destruct found].
Qed.

(** X1. On a frame body in which every escape byte is followed by a byte,
    [_unescape] (the [index]/[del] loop) returns exactly what the
    byte-by-byte scan gives, and the result is never longer than the
    input. *)
Theorem unescape_refines_scan (msg : list Z) :
  dangling_escape msg = false ->
  _unescape msg = Ok (unstuff msg) /\ length (unstuff msg) <= length msg.
Proof.
  intros Hd. split.
  - unfold _unescape.
    apply (unescape_loop_unstuff _ msg [] false); [done | lia | by right].
  - apply (unstuff_length (S (length msg))). lia.
Qed.

Lemma unescape_refines_scan_witness :
  dangling_escape [1; 0x7d; 0x5e; 2; 0x7d; 0x5d]%Z = false
  /\ _unescape [1; 0x7d; 0x5e; 2; 0x7d; 0x5d]%Z
     = Ok (unstuff [1; 0x7d; 0x5e; 2; 0x7d; 0x5d]%Z)
  /\ length (unstuff [1; 0x7d; 0x5e; 2; 0x7d; 0x5d]%Z)
     <= length [1; 0x7d; 0x5e; 2; 0x7d; 0x5d]%Z.
Proof.
  split; [reflexivity|].
  apply (unescape_refines_scan [1; 0x7d; 0x5e; 2; 0x7d; 0x5d]%Z). reflexivity.
Defined.

(** X2. When the only escape byte of a frame body is its last byte,
    [_unescape] returns the bytes before it twice, followed by the escape
    byte: the prefix is copied to the output before the missing byte is
    noticed, and the untouched input is then appended. *)
Theorem unescape_dangling_repeats_prefix (a : list Z) :
  (0x7d%Z ∉ a) -> _unescape (a ++ [0x7d%Z]) = Ok (a ++ a ++ [0x7d%Z]).
Proof.
  intros Hn. unfold _unescape. cbn [unescape_loop].
  rewrite index_0_app by done.
  rewrite <- (Nat.add_0_r (length a + 1)), <- Nat.add_assoc.
  rewrite getitem_app_r, slice_0_app. by cbn.
Qed.

Lemma unescape_dangling_repeats_prefix_witness :
  (0x7d%Z ∉ [1; 2; 3]%Z)
  /\ _unescape ([1; 2; 3] ++ [0x7d])%Z = Ok ([1; 2; 3] ++ [1; 2; 3] ++ [0x7d])%Z.
Proof.
  split; [by_decide|]. apply (unescape_dangling_repeats_prefix [1; 2; 3]%Z). by_decide.
Defined.

(** ** More on [_resynchronizeParser] and [_decodeMessage] *)

Section MoreDecoderFacts.
Context {Sink : Type} `{Messages} `{Fcs}.
Implicit Types (d : Decoder Sink) (s : Sink) (buf body : list Z).

Lemma settle_spec buf :
  buf = [] \/ (exists r, buf = FLAG :: r) ->
  (buf = (settle buf).2 \/ (buf = FLAG :: (settle buf).2 /\ (settle buf).1 = true))
  /\ ((settle buf).1 = true -> exists r, (settle buf).2 = FLAG :: r)
  /\ ((settle buf).1 = false -> length (settle buf).2 < 2).
Proof.
  intros [->|[r ->]]; [simpl; split_and!; [by left | done | lia]|].
  destruct r as [|b1 r]; [simpl; split_and!; [by left | done | lia]|].
  unfold settle, FLAG. simpl. destruct (Z.eqb_spec b1 126) as [->|Hne]; simpl.
  - split_and!; [by right | by eexists | done].
  - split_and!; [by left | by eexists | done].
Qed.

Lemma resync_buffer_spec buf :
  (exists n, noise n
     /\ (buf = n ++ (resync_buffer buf).2
         \/ (buf = n ++ FLAG :: (resync_buffer buf).2 /\ (resync_buffer buf).1 = true)))
  /\ ((resync_buffer buf).1 = true -> exists r, (resync_buffer buf).2 = FLAG :: r)
  /\ ((resync_buffer buf).1 = false -> length (resync_buffer buf).2 < 2).
Proof.
  unfold resync_buffer.
  destruct buf as [|b0 [|b1 r]];
    [simpl; split_and!; [exists []; split; [apply not_elem_of_nil | by left] | done | lia]..|].
  cbv beta iota. destruct (Z.eqb_spec b0 126) as [->|Hne].
  - destruct (settle_spec (FLAG :: b1 :: r)) as (Hs & Ht & Hf); [right; by eexists|].
    split_and!; [|done|done]. exists []. split; [apply not_elem_of_nil | done].
  - destruct (skip_to_flag_cases (b0 :: b1 :: r)) as [[Hs Hn]|(a & r' & Hb & Hn & Hs)].
    + rewrite Hs. simpl. split_and!; [|done|lia].
      exists (b0 :: b1 :: r). split; [done | left; by rewrite app_nil_r].
    + rewrite Hs. destruct (settle_spec (FLAG :: r')) as (Hs' & Ht & Hf); [right; by eexists|].
      split_and!; [|done|done]. exists a. split; [done|]. rewrite Hb.
      destruct Hs' as [Hs'|[Hs' Hok]].
      * left. by rewrite <- Hs'.
      * right. split; [|done]. by rewrite <- Hs'.
Qed.

(** X3. [_resynchronizeParser] always returns (the [raise] after its loop
    is never reached).  It adds exactly one to the resync counter, leaves
    [parserSynchronized] equal to what it returns, and takes bytes from the
    front of the buffer only: a run of bytes without delimiter, and after
    it at most one delimiter, the first of two in a row.  When it returns
    True the buffer starts with a delimiter; when it returns False fewer
    than two bytes are left (one byte, delimiter or not, can stay).
    Nothing else of the decoder changes. *)
Theorem resynchronizeParser_post d :
  exists ok buf',
    _resynchronizeParser d = Ok (ok, with_parser buf' ok (stats_resync d + 1) d)
    /\ (exists n, noise n
          /\ (inputBuffer d = n ++ buf' \/ (inputBuffer d = n ++ FLAG :: buf' /\ ok = true)))
    /\ (ok = true -> exists r, buf' = FLAG :: r)
    /\ (ok = false -> length buf' < 2).
Proof.
  exists (resync_buffer (inputBuffer d)).1, (resync_buffer (inputBuffer d)).2.
  split; [apply resynchronizeParser_eq | apply resync_buffer_spec].
Qed.

(** X4. A frame that passes the length and CRC checks but whose payload
    [messageToObject] does not recognise counts as one success for its type
    id, and nothing more: [_decodeMessage] returns False, the sink is not
    called (no handler needs to be registered), no other counter moves. *)
Theorem unrecognised_type_counts_success_only d s (body rawMsg : list Z) :
  _unescape body = Ok rawMsg -> 5 <= length rawMsg ->
  crcCheck (payload rawMsg) (checksum rawMsg) = true ->
  messageToObject (payload rawMsg) = None ->
  exists t,
    rawMsg !! 0 = Some t
    /\ _decodeMessage d s body
       = Ok (false,
             set_stats_msgs
               (<[ t := ((default (0, 0) (stats_msgs d !! t)).1 + 1,
                         (default (0, 0) (stats_msgs d !! t)).2) ]>
                  (stats_msgs d)) d,
             s).
Proof.
  intros Hu Hlen Hcrc Hm. apply Nat.ltb_ge in Hlen as Hlt.
  destruct rawMsg as [|t rawMsg]; [simpl in Hlen; lia|]. exists t. split; [done|].
  rewrite (decodeMessage_eq _ _ _ _ Hu). unfold dispatched, stats_after.
  by rewrite Hlt, Hcrc, Hm.
Qed.

Lemma decodes_to_unique body m1 m2 : decodes_to body m1 -> decodes_to body m2 -> m1 = m2.
Proof. intros (r1 & Hu1 & Hd1) (r2 & Hu2 & Hd2). congruence. Qed.

(** X5. [_decodeMessage] returns True exactly when it has called the
    return handler: on True the frame decodes to a message and the sink is
    what the handler made of it; on False the sink is untouched and the
    frame decodes to no message (too short, bad CRC, or unrecognised). *)
Theorem decodeMessage_true_iff_delivered (h : Message -> Sink -> result Sink)
    d s (body : list Z) (r : bool) d' s' :
  return_handler d = Some h ->
  _decodeMessage d s body = Ok (r, d', s') ->
  (r = true /\ exists m, decodes_to body m /\ h m s = Ok s')
  \/ (r = false /\ s' = s /\ forall m, ~ decodes_to body m).
Proof.
  intros Hh. destruct (unescape_total body) as [rawMsg Hu].
  rewrite (decodeMessage_eq _ _ _ _ Hu). cbv zeta.
  destruct (dispatched rawMsg) as [m|] eqn:Hm.
  - rewrite Hh. cbn [mbind result_bind].
    destruct (h m s) as [s1| |] eqn:Hs; [|done|done]. cbn [mbind result_bind].
    destruct (print_message (format d) m); [|done|done]. cbn [mbind result_bind].
    intros [= <- <- <-]. left. split; [done|]. exists m. split; [by exists rawMsg | done].
  - intros [= <- <- <-]. right. split_and!; [done | done |].
    intros m (r2 & Hu2 & Hd2). congruence.
Qed.


(** X7. A decoder on which no return handler has been registered (the
    state [__init__] leaves it in) raises [TypeError] on the first frame
    that decodes to a message: the handler attribute, still [None], is
    called without a check. *)
Theorem addBytes_without_handler_raises d s (body : list Z) (m : Message) :
  return_handler d = None -> inputBuffer d = [] ->
  body_ok body -> decodes_to body m ->
  addBytes d s (frame body) = Raise TypeError.
Proof.
  intros Hh Hd Hb (rawMsg & Hu & Hm).
  destruct (stream_chunks_decode d s [body] [frame body] Hd) as (sy & rs & E).
  { by constructor. }
  { unfold stream. simpl. by rewrite !app_nil_r. }
  rewrite feed_singleton in E. rewrite E. cbn [decode_frames].
  rewrite (decodeMessage_eq _ _ _ _ Hu). cbv zeta. by rewrite Hm, Hh.
Qed.

End MoreDecoderFacts.

Lemma frame_A_decodes : decodes_to frame_A message_A.
Proof. eexists. split; [vm_compute; reflexivity | vm_compute; reflexivity]. Qed.

Lemma unrecognised_type_counts_success_only_witness :
  _unescape (sealed [9; 1; 2; 3]%Z) = Ok ([9; 1; 2; 3]%Z ++ crcCompute [9; 1; 2; 3]%Z)
  /\ exists t,
      ([9; 1; 2; 3]%Z ++ crcCompute [9; 1; 2; 3]%Z) !! 0 = Some t
      /\ _decodeMessage recording_decoder [] (sealed [9; 1; 2; 3]%Z)
         = Ok (false,
               set_stats_msgs
                 (<[ t := ((default (0, 0) (stats_msgs recording_decoder !! t)).1 + 1,
                           (default (0, 0) (stats_msgs recording_decoder !! t)).2) ]>
                    (stats_msgs recording_decoder)) recording_decoder,
               []).
Proof.
  split; [vm_compute; reflexivity|].
  apply (unrecognised_type_counts_success_only recording_decoder []
           (sealed [9; 1; 2; 3]%Z) ([9; 1; 2; 3]%Z ++ crcCompute [9; 1; 2; 3]%Z));
    [vm_compute; reflexivity | vm_compute; lia | vm_compute; reflexivity
     | vm_compute; reflexivity].
Defined.

Lemma decodeMessage_true_iff_delivered_witness :
  _decodeMessage recording_decoder [] frame_A
  = Ok (true, recording_decoder_after_A, [message_A])
  /\ ((true = true /\ exists m, decodes_to frame_A m /\ record_sink m [] = Ok [message_A])
      \/ (true = false /\ [message_A] = [] /\ forall m, ~ decodes_to frame_A m)).
Proof.
  split; [vm_compute; reflexivity|].
  apply (decodeMessage_true_iff_delivered record_sink recording_decoder [] frame_A true
           recording_decoder_after_A [message_A]);
    [reflexivity | vm_compute; reflexivity].
Defined.


Lemma addBytes_without_handler_raises_witness :
  addBytes (Decoder_init 0) ([] : list Message) (frame frame_A) = Raise TypeError.
Proof.
  apply (addBytes_without_handler_raises (Decoder_init 0) [] frame_A message_A);
    [reflexivity | reflexivity | split; [done | by_decide] | apply frame_A_decodes].
Defined.

(** ** What every [addBytes] call keeps *)

Section CallInvariants.
Context {Sink : Type} `{Messages} `{Fcs}.
Implicit Types (d : Decoder Sink) (s : Sink) (buf body : list Z).

Lemma stats_grow_refl d : stats_grow d d.
Proof. unfold stats_grow. split_and!; try done; try lia. intros k c ->. by exists c. Qed.

Lemma stats_grow_trans d1 d2 d3 : stats_grow d1 d2 -> stats_grow d2 d3 -> stats_grow d1 d3.
Proof.
  intros (A1 & A2 & A3 & A4 & A5 & A6 & A7) (B1 & B2 & B3 & B4 & B5 & B6 & B7).
  unfold stats_grow. split_and!; try congruence; try lia.
  intros k c Hk. destruct (A7 k c Hk) as (c2 & Hk2 & ? & ?).
  destruct (B7 k c2 Hk2) as (c3 & Hk3 & ? & ?). exists c3. split_and!; [done | lia | lia].
Qed.

Lemma stats_grow_with_parser buf sy rs d :
  stats_resync d <= rs -> stats_grow d (with_parser buf sy rs d).
Proof.
  intros Hrs. unfold stats_grow. simpl. split_and!; try done; try lia.
  intros k c ->. by exists c.
Qed.

Lemma stats_grow_stats_after d rawMsg :
  stats_grow d (set_stats_msgs (stats_after (stats_msgs d) rawMsg) d).
Proof.
  unfold stats_grow. simpl. split_and!; try done; try lia.
  intros k c Hk. unfold stats_after. destruct (length rawMsg <? 5); [by exists c|].
  destruct rawMsg as [|t rawMsg]; [by exists c|].
  destruct (decide (k = t)) as [->|Hne].
  - rewrite lookup_insert_eq, Hk. eexists. split; [done|].
    unfold count_update. destruct (crcCheck _ _); simpl; lia.
  - rewrite lookup_insert_ne by done. by exists c.
Qed.

Lemma stats_grow_note_message m d : stats_grow d (note_message m d).
Proof.
  unfold stats_grow, note_message, heartbeatInterval. destruct d. simpl.
  repeat case_match; simpl; split_and!; try done; try lia; intros k c ->; by exists c.
Qed.

Lemma decodeMessage_grows d s body r d' s' :
  _decodeMessage d s body = Ok (r, d', s') -> stats_grow d d'.
Proof.
  destruct (unescape_total body) as [rawMsg Hu].
  rewrite (decodeMessage_eq _ _ _ _ Hu). cbv zeta.
  destruct (dispatched rawMsg) as [m|].
  - destruct (return_handler d) as [h|]; [|done]. cbn [mbind result_bind].
    destruct (h m s); [|done|done]. cbn [mbind result_bind].
    destruct (print_message (format d) m); [|done|done]. cbn [mbind result_bind].
    intros [= <- <- <-].
    eapply stats_grow_trans; [apply stats_grow_stats_after | apply stats_grow_note_message].
  - intros [= <- <- <-]. apply stats_grow_stats_after.
Qed.

Lemma resync_buffer_suffix buf : (resync_buffer buf).2 `suffix_of` buf.
Proof.
  destruct (resync_buffer_spec buf) as ((n & _ & [Hb|[Hb _]]) & _ & _).
  - exists n. done.
  - exists (n ++ [FLAG]). by rewrite <- (assoc_L (++)).
Qed.

Lemma parse_loop_post fuel : forall d s d' s',
  parserSynchronized d = true ->
  parse_loop fuel d s = Ok (d', s') ->
  stats_grow d d' /\ inputBuffer d' `suffix_of` inputBuffer d /\ idle d'.
Proof.
  induction fuel as [|fuel IH]; intros d s d' s' Hsy; [done|].
  cbn [parse_loop]. destruct (length (inputBuffer d) <? 2) eqn:Hl.
  { intros [= <- <-]. apply Nat.ltb_lt in Hl.
    split_and!; [apply stats_grow_refl | done | by left]. }
  apply Nat.ltb_ge in Hl.
  destruct (inputBuffer d) as [|b0 buf0] eqn:Hb; [simpl in Hl; lia|].
  cbn [getitem lookup list_lookup mbind result_bind].
  assert (exists ok buf1 rs1,
    (if negb (b0 =? 126)%Z then _resynchronizeParser d else Ok (true, d))
      = Ok (ok, with_parser buf1 ok rs1 d)
    /\ stats_resync d <= rs1 /\ buf1 `suffix_of` (b0 :: buf0)
    /\ (ok = true -> exists r, buf1 = FLAG :: r)
    /\ (ok = false -> length buf1 < 2)) as (ok & buf1 & rs1 & -> & Hrs & Hsuf & Ht & Hf).
  { destruct (Z.eqb_spec b0 126) as [->|Hne]; cbn [negb].
    - exists true, (FLAG :: buf0), (stats_resync d).
      split_and!; [| lia | done | by eexists | done].
      pose proof (with_parser_id d) as Hid. rewrite Hb, Hsy in Hid.
      unfold FLAG. by rewrite Hid.
    - rewrite resynchronizeParser_eq, Hb. eexists _, _, _.
      split_and!; [done | lia | apply resync_buffer_suffix | apply resync_buffer_spec
                   | apply resync_buffer_spec]. }
  cbn [mbind result_bind]. destruct ok; cbn [negb].
  2: { intros [= <- <-]. split_and!; [by apply stats_grow_with_parser | done |].
       left. cbn [inputBuffer with_parser]. by apply Hf. }
  destruct (Ht eq_refl) as [r1 ->]. cbn [inputBuffer with_parser].
  unfold index. cbn [drop]. rewrite drop_0.
  destruct (find_index 126 r1) as [i|] eqn:Ei.
  2: { intros [= <- <-]. split_and!; [by apply stats_grow_with_parser | done |].
       right. split; [done|]. exists r1. split; [done|]. by apply find_index_None. }
  destruct (_decodeMessage _ s _) as [[[r d3] s3]| |] eqn:E; [|done|done].
  cbn [mbind result_bind]. intros Hp.
  pose proof (decodeMessage_grows _ _ _ _ _ _ E) as Hg.
  apply decodeMessage_preserves in E as (Hb3 & Hsy3 & _).
  apply IH in Hp as (Hg' & Hsuf' & Hidle); [|by rewrite Hsy3].
  split_and!; [| | done].
  - eapply stats_grow_trans; [|apply Hg']. eapply stats_grow_trans; [|apply Hg].
    rewrite set_inputBuffer_with_parser, with_parser_with_parser.
    by apply stats_grow_with_parser.
  - etrans; [apply Hsuf'|]. rewrite Hb3. cbn [inputBuffer set_inputBuffer].
    etrans; [apply suffix_drop | done].
Qed.

Lemma parseMessages_post d s d' s' :
  _parseMessages d s = Ok (d', s') ->
  stats_grow d d' /\ inputBuffer d' `suffix_of` inputBuffer d /\ idle d'
  /\ (parserSynchronized d = false -> stats_resync d < stats_resync d').
Proof.
  unfold _parseMessages. destruct (parserSynchronized d) eqn:Hsy; cbn [negb].
  - intros (? & ? & ?)%parse_loop_post; done.
  - rewrite resynchronizeParser_eq. cbn [mbind result_bind].
    destruct (resync_buffer_spec (inputBuffer d)) as (_ & Ht & Hf).
    destruct (resync_buffer (inputBuffer d)).1 eqn:Hok; cbn [negb].
    + intros (Hg & Hsuf & Hidle)%parse_loop_post; [|done].
      split_and!; [| | done |].
      * eapply stats_grow_trans; [|apply Hg]. apply stats_grow_with_parser. lia.
      * etrans; [apply Hsuf | apply resync_buffer_suffix].
      * intros _. destruct Hg as (_ & Hrs & _). cbn [stats_resync with_parser] in Hrs. lia.
    + intros [= <- <-]. split_and!.
      * apply stats_grow_with_parser. lia.
      * apply resync_buffer_suffix.
      * left. by apply Hf.
      * intros _. cbn [stats_resync with_parser]. lia.
Qed.

(** X8. Whatever bytes [addBytes] is given, a call that returns has only
    added to the statistics: no entry of [stats['msgs']] has disappeared
    and neither of its two counts has gone down, the resync counter has not
    gone down (and has gone up when the call started unsynchronised), the
    clock and the altitude age have not gone back; [stats['msgCount']] is
    never touched, and the handler and the output format are the same. *)
Theorem addBytes_only_adds_to_statistics d s (data : list Z) d' s' :
  addBytes d s data = Ok (d', s') ->
  stats_msgCount d' = stats_msgCount d
  /\ stats_resync d <= stats_resync d'
  /\ (parserSynchronized d = false -> stats_resync d < stats_resync d')
  /\ (forall k c, stats_msgs d !! k = Some c ->
        exists c', stats_msgs d' !! k = Some c' /\ c.1 <= c'.1 /\ c.2 <= c'.2)
  /\ (currtime d <= currtime d')%Z
  /\ (altitudeAge d <= altitudeAge d')%Z
  /\ return_handler d' = return_handler d
  /\ format d' = format d.
Proof.
  unfold addBytes. intros E.
  apply parseMessages_post in E as ((A1 & A2 & A3 & A4 & A5 & A6 & A7) & _ & _ & Hrs).
  by split_and!.
Qed.

(** X9. When [addBytes] returns, the buffer is an end piece of what the old
    buffer and the new bytes make together (bytes only leave at the front),
    and it holds no complete frame: fewer than two bytes are left, or the
    parser is synchronised and the buffer is one delimiter followed by
    bytes that are not delimiters. *)
Theorem addBytes_leaves_no_complete_frame d s (data : list Z) d' s' :
  addBytes d s data = Ok (d', s') ->
  inputBuffer d' `suffix_of` (inputBuffer d ++ data)
  /\ (length (inputBuffer d') < 2
      \/ (parserSynchronized d' = true
          /\ exists p, inputBuffer d' = FLAG :: p /\ (FLAG ∉ p))).
Proof.
  unfold addBytes. intros E.
  by apply parseMessages_post in E as (_ & Hsuf & Hidle & _).
Qed.

Lemma stream_long body bodies tail :
  body_ok body -> 2 <= length (stream (body :: bodies) ++ tail).
Proof.
  intros (x & r & -> & _)%body_ok_head. simpl. lia.
Qed.

(** X10. On a decoder with an empty buffer, one [addBytes] call with a
    stream of whole frames (each body not empty and free of the delimiter,
    between its own two delimiters) does what handing the bodies to
    [_decodeMessage] one after the other does, empties the buffer and
    leaves the parser synchronised; the resync counter is untouched when
    the parser was synchronised, and goes up by exactly one when it was
    not. *)
Theorem clean_stream_is_decoded_in_turn d s (bodies : list (list Z)) d1 s1 :
  inputBuffer d = [] -> Forall body_ok bodies -> bodies <> [] ->
  decode_frames d s bodies = Ok (d1, s1) ->
  addBytes d s (stream bodies)
  = Ok (with_parser [] true
                    (stats_resync d + (if parserSynchronized d then 0 else 1)) d1,
        s1).
Proof.
  intros Hd Hb Hne E. unfold addBytes. rewrite Hd. cbn [app].
  assert (Forall noise bodies) as Hn by (eapply Forall_impl; [done | apply body_ok_noise]).
  assert (stream bodies = stream bodies ++ []) as Hst by by rewrite app_nil_r.
  unfold _parseMessages. cbn [parserSynchronized set_inputBuffer].
  destruct (parserSynchronized d) eqn:Hsy; cbn [negb].
  - rewrite (parse_loop_stream bodies _ _ s [] Hn); [| by left | done | cbn; lia].
    rewrite set_inputBuffer_with_parser, decode_frames_with_parser, E.
    cbn [mbind result_bind].
    unfold set_inputBuffer, with_parser. simpl. by rewrite Hsy, Nat.add_0_r.
  - rewrite resynchronizeParser_eq. cbn [inputBuffer set_inputBuffer stats_resync].
    rewrite Hst, (resync_buffer_stream _ _ Hb) by by left.
    destruct bodies as [|body bodies]; [done|].
    apply Forall_cons in Hb as [Hb0 Hb].
    pose proof (stream_long body bodies [] Hb0) as Hlen.
    apply Nat.ltb_ge in Hlen. rewrite Hlen. cbn [fst snd negb mbind result_bind].
    rewrite (parse_loop_stream (body :: bodies) _ _ s [] Hn);
      [| by left | done | cbn [inputBuffer with_parser]; lia].
    rewrite set_inputBuffer_with_parser, !with_parser_with_parser.
    rewrite decode_frames_with_parser, E. cbn [mbind result_bind].
    by rewrite set_inputBuffer_with_parser, with_parser_with_parser.
Qed.

End CallInvariants.

Lemma addBytes_only_adds_to_statistics_witness :
  addBytes recording_decoder [] (frame frame_A ++ [1; 2; 0x7e; 0x7e; 3]%Z)
  = Ok (with_parser [0x7e; 3]%Z true 2 recording_decoder_after_A, [message_A])
  /\ stats_msgCount (with_parser [0x7e; 3]%Z true 2 recording_decoder_after_A)
     = stats_msgCount recording_decoder
  /\ stats_resync recording_decoder
     <= stats_resync (with_parser [0x7e; 3]%Z true 2 recording_decoder_after_A)
  /\ (parserSynchronized recording_decoder = false
      -> stats_resync recording_decoder
         < stats_resync (with_parser [0x7e; 3]%Z true 2 recording_decoder_after_A))
  /\ (forall k c, stats_msgs recording_decoder !! k = Some c ->
        exists c', stats_msgs (with_parser [0x7e; 3]%Z true 2 recording_decoder_after_A) !! k
                   = Some c' /\ c.1 <= c'.1 /\ c.2 <= c'.2)
  /\ (currtime recording_decoder
      <= currtime (with_parser [0x7e; 3]%Z true 2 recording_decoder_after_A))%Z
  /\ (altitudeAge recording_decoder
      <= altitudeAge (with_parser [0x7e; 3]%Z true 2 recording_decoder_after_A))%Z
  /\ return_handler (with_parser [0x7e; 3]%Z true 2 recording_decoder_after_A)
     = return_handler recording_decoder
  /\ format (with_parser [0x7e; 3]%Z true 2 recording_decoder_after_A)
     = format recording_decoder.
Proof.
  split; [vm_compute; reflexivity|].
  apply (addBytes_only_adds_to_statistics recording_decoder []
           (frame frame_A ++ [1; 2; 0x7e; 0x7e; 3]%Z) _ [message_A]).
  vm_compute; reflexivity.
Defined.

Lemma addBytes_leaves_no_complete_frame_witness :
  addBytes recording_decoder [] (frame frame_A ++ [0x7e; 1; 2]%Z)
  = Ok (with_parser [0x7e; 1; 2]%Z true 1 recording_decoder_after_A, [message_A])
  /\ inputBuffer (with_parser [0x7e; 1; 2]%Z true 1 recording_decoder_after_A)
     `suffix_of` (inputBuffer recording_decoder ++ frame frame_A ++ [0x7e; 1; 2]%Z)
  /\ (length (inputBuffer (with_parser [0x7e; 1; 2]%Z true 1 recording_decoder_after_A)) < 2
      \/ (parserSynchronized (with_parser [0x7e; 1; 2]%Z true 1 recording_decoder_after_A)
          = true
          /\ exists p, inputBuffer (with_parser [0x7e; 1; 2]%Z true 1 recording_decoder_after_A)
                       = FLAG :: p /\ (FLAG ∉ p))).
Proof.
  split; [vm_compute; reflexivity|].
  apply (addBytes_leaves_no_complete_frame recording_decoder []
           (frame frame_A ++ [0x7e; 1; 2]%Z) _ [message_A]).
  vm_compute; reflexivity.
Defined.

Lemma clean_stream_is_decoded_in_turn_witness :
  decode_frames recording_decoder [] [frame_A] = Ok (recording_decoder_after_A, [message_A])
  /\ addBytes recording_decoder [] (stream [frame_A])
     = Ok (with_parser [] true
             (stats_resync recording_decoder
              + (if parserSynchronized recording_decoder then 0 else 1))
             recording_decoder_after_A,
           [message_A]).
Proof.
  split; [vm_compute; reflexivity|].
  apply (clean_stream_is_decoded_in_turn recording_decoder [] [frame_A]);
    [reflexivity | repeat constructor; [done | by_decide] | done | vm_compute; reflexivity].
Defined.

(** ** The parser and the byte-at-a-time machine *)

Section StateMachine.
Context {Sink : Type} `{Messages} `{Fcs}.
Implicit Types (d : Decoder Sink) (s : Sink) (buf body : list Z).

Lemma parse_loop_fuel f1 : forall f2 d s,
  length (inputBuffer d) < f1 -> length (inputBuffer d) < f2 ->
  parse_loop f1 d s = parse_loop f2 d s.
Proof.
  induction f1 as [|f1 IH]; intros f2 d s H1 H2; [lia|].
  destruct f2 as [|f2]; [lia|]. cbn [parse_loop].
  destruct (length (inputBuffer d) <? 2) eqn:Hl; [done|]. apply Nat.ltb_ge in Hl.
  destruct (getitem (inputBuffer d) 0) as [b0| |]; [|done|done]. cbn [mbind result_bind].
  assert (exists ok d1,
    (if negb (b0 =? 126)%Z then _resynchronizeParser d else Ok (true, d)) = Ok (ok, d1)
    /\ length (inputBuffer d1) <= length (inputBuffer d)) as (ok & d1 & -> & Hl1).
  { destruct (negb _).
    - rewrite resynchronizeParser_eq. eexists _, _. split; [done|].
      apply resync_buffer_length.
    - by eexists _, _. }
  cbn [mbind result_bind]. destruct ok; cbn [negb]; [|done].
  destruct (index_cases (inputBuffer d1) 0x7e 1) as [->|(i & -> & Hi)]; [done|].
  destruct (_decodeMessage _ s _) as [[[r d3] s3]| |] eqn:E; [|done|done].
  cbn [mbind result_bind].
  apply decodeMessage_preserves in E as (Hb3 & _).
  cbn [inputBuffer set_inputBuffer] in Hb3.
  apply IH; rewrite Hb3, length_drop; lia.
Qed.

Lemma PM_sync buf rs d s :
  PM buf true rs d s = parse_loop (S (length buf)) (with_parser buf true rs d) s.
Proof. done. Qed.

Lemma PM_frame p rest rs d s :
  (FLAG ∉ p) ->
  PM (FLAG :: p ++ FLAG :: rest) true rs d s =
    ('(_, d', s') ← _decodeMessage d s p; PM rest true rs d' s').
Proof.
  intros Hn. rewrite PM_sync.
  rewrite (parse_loop_frame_step _ _ _ p rest Hn); [|done].
  rewrite set_inputBuffer_with_parser, with_parser_with_parser, decodeMessage_with_parser.
  destruct (_decodeMessage d s p) as [[[r d1] s1]| |]; [|done|done].
  cbn [mbind result_bind]. rewrite PM_sync.
  apply parse_loop_fuel; cbn [inputBuffer with_parser length]; rewrite ?length_app;
    simpl; lia.
Qed.

Lemma parse_loop_S fuel d s :
  parse_loop (S fuel) d s =
    if length (inputBuffer d) <? 2 then Ok (d, s)
    else
      b0 ← getitem (inputBuffer d) 0;
      '(synced, d) ← (if negb (b0 =? 0x7e)%Z
                      then _resynchronizeParser d
                      else Ok (true, d));
      if negb synced then Ok (d, s) else extract_next fuel d s.
Proof. done. Qed.

Lemma extract_next_fuel f1 f2 d s :
  length (inputBuffer d) <= f1 -> length (inputBuffer d) <= f2 ->
  extract_next f1 d s = extract_next f2 d s.
Proof.
  intros H1 H2. unfold extract_next.
  destruct (index_cases (inputBuffer d) 0x7e 1) as [->|(i & -> & Hi)]; [done|].
  destruct (_decodeMessage _ s _) as [[[r d3] s3]| |] eqn:E; [|done|done].
  cbn [mbind result_bind].
  apply decodeMessage_preserves in E as (Hb3 & _).
  cbn [inputBuffer set_inputBuffer] in Hb3.
  apply parse_loop_fuel; rewrite Hb3, length_drop; lia.
Qed.

Lemma parse_loop_head fuel d s r :
  inputBuffer d = FLAG :: r -> parse_loop (S fuel) d s = extract_next fuel d s.
Proof.
  intros Hb. rewrite parse_loop_S, Hb. destruct r as [|c r].
  - unfold extract_next. rewrite Hb. by cbn.
  - cbn [length Nat.ltb Nat.leb getitem lookup list_lookup mbind result_bind].
    unfold FLAG. by cbn [Z.eqb Pos.eqb negb mbind result_bind].
Qed.

Lemma PM_resync buf sy rs d s :
  sy = false \/ (exists x y r, buf = x :: y :: r /\ x <> FLAG) ->
  PM buf sy rs d s =
    if (resync_buffer buf).1
    then PM (resync_buffer buf).2 true (rs + 1) d s
    else Ok (with_parser (resync_buffer buf).2 false (rs + 1) d, s).
Proof.
  intros Hc. destruct sy.
  - destruct Hc as [?|(x & y & r & -> & Hx)]; [done|]. unfold FLAG in Hx.
    rewrite PM_sync, parse_loop_S. cbn [inputBuffer with_parser length].
    cbn [Nat.ltb Nat.leb getitem lookup list_lookup mbind result_bind].
    destruct (Z.eqb_spec x 126); [done|]. cbn [negb].
    rewrite resynchronizeParser_eq. cbn [inputBuffer stats_resync with_parser].
    cbn [mbind result_bind].
    destruct (resync_buffer_spec (x :: y :: r)) as (_ & Ht & _).
    pose proof (resync_buffer_length (x :: y :: r)) as Hlen.
    destruct (resync_buffer (x :: y :: r)) as [ok buf1]. cbn [fst snd] in *.
    destruct ok; cbn [negb]; [|done].
    destruct (Ht eq_refl) as [r1 ->].
    rewrite PM_sync, (parse_loop_head _ _ _ r1) by done.
    rewrite with_parser_with_parser.
    apply extract_next_fuel; cbn [inputBuffer with_parser]; simpl in *; lia.
  - unfold PM, _parseMessages. cbn [parserSynchronized with_parser negb].
    rewrite resynchronizeParser_eq. cbn [inputBuffer stats_resync with_parser].
    cbn [mbind result_bind]. by destruct (resync_buffer buf).1.
Qed.

Lemma PM_idle st buf sy rs d s :
  repr st buf sy ->
  PM buf sy rs d s = Ok (with_parser buf sy (rs + if sy then 0 else 1) d, s).
Proof.
  intros Hr. destruct sy.
  - rewrite PM_sync, Nat.add_0_r. inversion Hr; subst.
    + by cbn.
    + by cbn.
    + apply parse_loop_partial; [lia|]. right. by eexists.
  - rewrite PM_resync by by left. by inversion Hr; subst.
Qed.

Lemma skip_to_flag_cons x l :
  skip_to_flag (x :: l) = if (x =? 0x7e)%Z then x :: l else skip_to_flag l.
Proof.
  unfold skip_to_flag. cbn [find_index]. unfold FLAG.
  destruct (x =? 126)%Z; [done|]. by destruct (find_index 126 l).
Qed.

Lemma resync_buffer_drop_noise x y l :
  x <> FLAG -> l <> [] -> resync_buffer (x :: y :: l) = resync_buffer (y :: l).
Proof.
  intros Hx Hl. destruct l as [|z l]; [done|]. unfold FLAG in Hx.
  cbn [resync_buffer]. rewrite !skip_to_flag_cons.
  destruct (Z.eqb_spec x 126); [done|]. by destruct (y =? 126)%Z.
Qed.

Lemma PM_drop_noise x y l sy rs d s :
  x <> FLAG -> l <> [] -> PM (x :: y :: l) sy rs d s = PM (y :: l) false rs d s.
Proof.
  intros Hx Hl.
  rewrite (PM_resync (x :: y :: l)) by (right; by eexists _, _, _).
  rewrite (PM_resync (y :: l) false) by by left.
  by rewrite resync_buffer_drop_noise.
Qed.

Lemma RES_cons p fs buf sy rs d s :
  RES (p :: fs) buf sy rs d s =
    ('(_, d', s') ← _decodeMessage d s p; RES fs buf sy rs d' s').
Proof.
  unfold RES. cbn [decode_frames].
  by destruct (_decodeMessage d s p) as [[[r d1] s1]| |].
Qed.

(** [_parseMessages] on a buffer that stands for the state [st], followed by
    the bytes [data]: the frames that the machine closes are decoded in
    turn, and what is left stands for the machine's last state *)
Lemma parse_run data : forall st buf sy,
  repr st buf sy ->
  exists buf' sy' n,
    repr (machine_run st data).2 buf' sy'
    /\ forall d s rs,
         PM (buf ++ data) sy rs d s = RES (machine_run st data).1 buf' sy' (rs + n) d s.
Proof.
  induction data as [|b r IH]; intros st buf sy Hr.
  - exists buf, sy, (if sy then 0 else 1). split; [done|]. intros d s rs.
    rewrite app_nil_r. by apply PM_idle with st.
  - cbn [machine_run].
    destruct Hr as [|x sy Hx| | |p Hp]; cbn [machine_step app].
    + (* nothing held, out of step *)
      destruct (Z.eqb_spec b 126) as [->|Hb].
      * destruct (IH UnsyncFlag [FLAG] false) as (buf' & sy' & n & Hr' & E);
          [constructor|].
        destruct (machine_run UnsyncFlag r) as [fs stf]. by exists buf', sy', n.
      * destruct (IH Unsync [b] false) as (buf' & sy' & n & Hr' & E);
          [by constructor|].
        destruct (machine_run Unsync r) as [fs stf]. by exists buf', sy', n.
    + (* one byte of noise held *)
      destruct r as [|c r].
      * cbn [machine_run]. destruct (Z.eqb_spec b 126) as [->|Hb].
        -- exists [FLAG], false, 1. split; [constructor|]. intros d s rs.
           rewrite PM_resync by (right; by eexists _, _, _).
           unfold FLAG in Hx. cbn [resync_buffer].
           destruct (Z.eqb_spec x 126); [done|].
           unfold skip_to_flag, FLAG. cbn [find_index].
           destruct (Z.eqb_spec x 126); [done|]. done.
        -- exists [], false, 1. split; [constructor|]. intros d s rs.
           rewrite PM_resync by (right; by eexists _, _, _).
           unfold FLAG in Hx. cbn [resync_buffer].
           destruct (Z.eqb_spec x 126); [done|].
           unfold skip_to_flag, FLAG. cbn [find_index].
           destruct (Z.eqb_spec x 126); [done|].
           destruct (Z.eqb_spec b 126); [done|]. done.
      * destruct (Z.eqb_spec b 126) as [->|Hb].
        -- destruct (IH UnsyncFlag [FLAG] false) as (buf' & sy' & n & Hr' & E);
             [constructor|].
           destruct (machine_run UnsyncFlag (c :: r)) as [fs stf].
           exists buf', sy', n. split; [done|]. intros d s rs.
           rewrite PM_drop_noise by done. apply E.
        -- destruct (IH Unsync [b] false) as (buf' & sy' & n & Hr' & E);
             [by constructor|].
           destruct (machine_run Unsync (c :: r)) as [fs stf].
           exists buf', sy', n. split; [done|]. intros d s rs.
           rewrite PM_drop_noise by done. apply E.
    + (* one delimiter held, out of step *)
      destruct (Z.eqb_spec b 126) as [->|Hb].
      * destruct (IH (InFrame []) [FLAG] true) as (buf' & sy' & n & Hr' & E);
          [constructor; apply not_elem_of_nil|].
        destruct (machine_run (InFrame []) r) as [fs stf].
        exists buf', sy', (1 + n). split; [done|]. intros d s rs.
        rewrite PM_resync by by left. cbn [resync_buffer settle].
        unfold FLAG. cbn [Z.eqb Pos.eqb fst snd].
        rewrite Nat.add_assoc. apply E.
      * destruct (IH (InFrame [b]) [FLAG; b] true) as (buf' & sy' & n & Hr' & E).
        { constructor. intros Hf%list_elem_of_singleton. unfold FLAG in Hf. congruence. }
        destruct (machine_run (InFrame [b]) r) as [fs stf].
        exists buf', sy', (1 + n). split; [done|]. intros d s rs.
        rewrite PM_resync by by left. cbn [resync_buffer settle].
        unfold FLAG. cbn [Z.eqb Pos.eqb fst snd].
        destruct (Z.eqb_spec b 126); [done|]. cbn [fst snd].
        rewrite Nat.add_assoc. apply E.
    + (* in step, between two frames *)
      destruct (Z.eqb_spec b 126) as [->|Hb].
      * destruct (IH (InFrame []) [FLAG] true) as (buf' & sy' & n & Hr' & E);
          [constructor; apply not_elem_of_nil|].
        destruct (machine_run (InFrame []) r) as [fs stf]. by exists buf', sy', n.
      * destruct (IH Unsync [b] true) as (buf' & sy' & n & Hr' & E);
          [by constructor|].
        destruct (machine_run Unsync r) as [fs stf]. by exists buf', sy', n.
    + (* in step, inside a frame *)
      destruct (Z.eqb_spec b 126) as [->|Hb].
      * destruct (IH Sync0 [] true) as (buf' & sy' & n & Hr' & E); [constructor|].
        destruct (machine_run Sync0 r) as [fs stf].
        exists buf', sy', n. split; [done|]. intros d s rs. cbn [fst snd] in *.
        rewrite RES_cons. pose proof (PM_frame p r rs d s Hp) as Hf.
        unfold FLAG in Hf at 2. rewrite Hf.
        destruct (_decodeMessage d s p) as [[[r0 d1] s1]| |]; [|done|done].
        cbn [mbind result_bind]. apply E.
      * destruct (IH (InFrame (p ++ [b])) (FLAG :: p ++ [b]) true)
          as (buf' & sy' & n & Hr' & E).
        { constructor. rewrite not_elem_of_app, list_elem_of_singleton.
          split; [done|]. unfold FLAG. congruence. }
        destruct (machine_run (InFrame (p ++ [b])) r) as [fs stf].
        exists buf', sy', n. split; [done|]. intros d s rs.
        specialize (E d s rs). cbn [app] in E. by rewrite <- app_assoc in E.
Qed.

Lemma machine_run_app a : forall st b,
  machine_run st (a ++ b) =
    ((machine_run st a).1 ++ (machine_run (machine_run st a).2 b).1,
     (machine_run (machine_run st a).2 b).2).
Proof.
  induction a as [|x a IH]; intros st b; cbn [app machine_run].
  - cbn [fst snd app]. by destruct (machine_run st b).
  - destruct (machine_step st x) as [st' out]. rewrite IH.
    destruct (machine_run st' a) as [fs stf]. cbn [fst snd].
    destruct (machine_run stf b) as [fs' stf']. cbn [fst snd].
    by destruct out.
Qed.

Lemma addBytes_PM buf sy rs d s data :
  addBytes (with_parser buf sy rs d) s data = PM (buf ++ data) sy rs d s.
Proof. done. Qed.

(** successive calls on a buffer that stands for the state [st]: the frames
    that the machine closes on the concatenated chunks are decoded in turn *)
Lemma feed_run chunks : forall st buf sy,
  repr st buf sy ->
  exists buf' sy' n,
    repr (machine_run st (concat chunks)).2 buf' sy'
    /\ forall d s rs,
         feed (with_parser buf sy rs d) s chunks =
           RES (machine_run st (concat chunks)).1 buf' sy' (rs + n) d s.
Proof.
  induction chunks as [|c cs IH]; intros st buf sy Hr.
  - exists buf, sy, 0. split; [done|]. intros d s rs.
    by rewrite Nat.add_0_r.
  - destruct (parse_run c st buf sy Hr) as (buf1 & sy1 & n1 & Hr1 & E1).
    destruct (IH _ _ _ Hr1) as (buf2 & sy2 & n2 & Hr2 & E2).
    exists buf2, sy2, (n1 + n2). cbn [concat]. rewrite machine_run_app.
    split; [done|]. intros d s rs. cbn [feed fst snd].
    rewrite addBytes_PM, E1. unfold RES. rewrite decode_frames_app.
    destruct (decode_frames d s (machine_run st c).1) as [[d1 s1]| |]; [|done|done].
    cbn [mbind result_bind]. rewrite E2, Nat.add_assoc. done.
Qed.

(** X11.  The framing code is a machine that reads one byte at a time.
    From a decoder whose buffer and synchronisation flag stand for the
    state [st] of that machine (the new decoder stands for [Unsync]), any
    sequence of [addBytes] calls hands to [_decodeMessage], in order,
    exactly the frame bodies that the machine closes on the concatenated
    bytes; it raises what the first failing frame raises, and otherwise
    leaves a buffer and a flag that stand for the machine's last state,
    with [stats['resync']] grown by some [n]. *)
Theorem feed_refines_machine (st : pstate) d s (chunks : list (list Z)) :
  repr st (inputBuffer d) (parserSynchronized d) ->
  exists buf' sy' n,
    repr (machine_run st (concat chunks)).2 buf' sy'
    /\ feed d s chunks =
         ('(d', s') ← decode_frames d s (machine_run st (concat chunks)).1;
          Ok (with_parser buf' sy' (stats_resync d + n) d', s')).
Proof.
  intros Hr. destruct (feed_run chunks _ _ _ Hr) as (buf' & sy' & n & Hr' & E).
  exists buf', sy', n. split; [done|].
  specialize (E d s (stats_resync d)). by rewrite with_parser_id in E.
Qed.

(** X12.  How the bytes are cut into [addBytes] calls never changes what
    is decoded: two sequences of chunks with the same concatenation, fed to
    the same decoder, give the same sink, the same message statistics, clock
    and altitude age and buffers that stand for the same machine state, or
    raise the same exception.  Only [stats['resync']] and the noise byte
    kept in the buffer may differ. *)
Theorem chunking_never_changes_messages (st : pstate) d s (chunks1 chunks2 : list (list Z)) :
  repr st (inputBuffer d) (parserSynchronized d) ->
  concat chunks1 = concat chunks2 ->
  same_messages (feed d s chunks1) (feed d s chunks2).
Proof.
  intros Hr Hc.
  destruct (feed_run chunks1 _ _ _ Hr) as (b1 & sy1 & n1 & Hr1 & E1).
  destruct (feed_run chunks2 _ _ _ Hr) as (b2 & sy2 & n2 & Hr2 & E2).
  specialize (E1 d s (stats_resync d)). specialize (E2 d s (stats_resync d)).
  rewrite with_parser_id in E1, E2. rewrite E1, E2, <- Hc. unfold RES.
  destruct (decode_frames d s (machine_run st (concat chunks1)).1) as [[d' s']| |];
    cbn [mbind result_bind same_messages]; [|done|done].
  split_and!; try done. exists (machine_run st (concat chunks1)).2.
  split; [done|]. by rewrite Hc.
Qed.

End StateMachine.

Lemma feed_refines_machine_witness :
  repr Unsync (inputBuffer recording_decoder) (parserSynchronized recording_decoder)
  /\ exists buf' sy' n,
       repr (machine_run Unsync
               (concat [[1; 2; FLAG]%Z; take 5 frame_A; drop 5 frame_A ++ [FLAG; 3%Z]])).2
            buf' sy'
       /\ feed recording_decoder []
               [[1; 2; FLAG]%Z; take 5 frame_A; drop 5 frame_A ++ [FLAG; 3%Z]] =
            ('(d', s') ← decode_frames recording_decoder []
                           (machine_run Unsync
                              (concat [[1; 2; FLAG]%Z; take 5 frame_A;
                                       drop 5 frame_A ++ [FLAG; 3%Z]])).1;
             Ok (with_parser buf' sy' (stats_resync recording_decoder + n) d', s')).
Proof.
  split; [constructor|].
  apply (feed_refines_machine Unsync recording_decoder []
           [[1; 2; FLAG]%Z; take 5 frame_A; drop 5 frame_A ++ [FLAG; 3%Z]]).
  constructor.
Defined.

Lemma chunking_never_changes_messages_witness :
  same_messages
    (feed recording_decoder [] [[1; 2; FLAG]%Z; take 5 frame_A; drop 5 frame_A ++ [FLAG; 3%Z]])
    (feed recording_decoder [] [[1; 2]%Z; FLAG :: frame_A ++ [FLAG]; [3%Z]]).
Proof.
  apply (chunking_never_changes_messages Unsync recording_decoder []);
    [constructor | vm_compute; reflexivity].
Defined.

(** ** More on the handler of [gdl90.py] *)

Section MoreHandlerFacts.
Context {Bus : Type}.
Implicit Types (self : GDL90PubSub Bus) (m : Message).

(** X13.  [_GDL_return] leaves the object as it is, and publishes
    nothing, on a message whose type is neither ["Heartbeat"] nor
    ["TrafficReport"]. *)
Theorem GDL_return_ignores_other_messages senddata self m (ty : Value) :
  lookup_field m "MsgType" = Some ty ->
  py_eq ty (VStr "Heartbeat") = false ->
  py_eq ty (VStr "TrafficReport") = false ->
  _GDL_return senddata m self = Ok self.
Proof.
  intros Hty Hh Ht. unfold _GDL_return, getattr. rewrite Hty.
  cbn [mbind result_bind]. rewrite Hh. cbn [mbind result_bind]. by rewrite Ht.
Qed.

(** X14.  A Traffic Report that lacks one of the attributes the handler
    reads raises [AttributeError] for the first one missing in the order of
    the source, whatever [self._senddata] is: the dictionary is handed over
    only after all eight reads, so nothing is published. *)
Theorem GDL_return_missing_attribute_raises senddata self m (a : string) :
  lookup_field m "MsgType" = Some (VStr "TrafficReport") ->
  find (fun a => negb (hasattr m a)) traffic_attrs = Some a ->
  _GDL_return senddata m self = Raise (AttributeError a).
Proof.
  intros Hty Hf. unfold _GDL_return, getattr. rewrite Hty. cbn.
  cbn in Hf. unfold hasattr in Hf.
  repeat match goal with
         | |- context [lookup_field m ?n] =>
           destruct (lookup_field m n) eqn:?; cbn in *; try congruence
         end.
Qed.

(** X15.  A Heartbeat that has the attribute [Timestamp], then a Traffic
    Report with its eight attributes: the second call hands to
    [self._senddata] a dictionary that holds the Heartbeat's value under
    ["time"] and, under each of the other eight keys, the attribute of the
    Traffic Report that the source assigns to it. *)
Theorem traffic_report_carries_heartbeat_time senddata self (hb tr : Message) (ts : Value) :
  lookup_field hb "MsgType" = Some (VStr "Heartbeat") ->
  lookup_field hb "Timestamp" = Some ts ->
  lookup_field tr "MsgType" = Some (VStr "TrafficReport") ->
  forallb (hasattr tr) traffic_attrs = true ->
  exists publish_dict : gmap string Value,
    publish_dict !! "time"%string = Some ts
    /\ Forall (fun ka => publish_dict !! ka.1 = lookup_field tr ka.2) published_keys
    /\ (self1 ← _GDL_return (Some senddata) hb self;
        _GDL_return (Some senddata) tr self1)
       = (b ← senddata publish_dict (bus self); Ok (mkGDL90PubSub ts b)).
Proof.
  intros Hh Hts Hty Hf.
  rewrite (GDL_return_stores_Timestamp _ _ _ _ Hh Hts). cbn [mbind result_bind].
  cbn in Hf. repeat (apply andb_true_iff in Hf as [?%hasattr_lookup Hf]).
  repeat match goal with Hx : exists v, _ |- _ => destruct Hx as [? Hx] end.
  unfold _GDL_return, getattr. rewrite Hty. cbn.
  repeat match goal with Hx : lookup_field tr _ = _ |- _ => rewrite Hx end.
  cbn. eexists. split_and!; [| |reflexivity].
  - by repeat (rewrite lookup_insert_ne by done); rewrite lookup_insert_eq.
  - repeat constructor; cbn [fst snd];
      match goal with Hx : lookup_field tr ?a = _ |- _ !! _ = lookup_field tr ?a =>
        rewrite Hx end;
      by repeat (rewrite lookup_insert_ne by done); rewrite lookup_insert_eq.
Qed.

End MoreHandlerFacts.

Lemma GDL_return_ignores_other_messages_witness :
  _GDL_return (Bus := list (gmap string Value)) None
              [("MsgType", VStr "OwnershipReport")]%string (GDL90PubSub_init [])
  = Ok (GDL90PubSub_init []).
Proof.
  apply (GDL_return_ignores_other_messages None (GDL90PubSub_init [])
           [("MsgType", VStr "OwnershipReport")]%string (VStr "OwnershipReport"));
    reflexivity.
Defined.

Lemma GDL_return_missing_attribute_raises_witness :
  _GDL_return (Bus := list (gmap string Value)) None
              [("MsgType", VStr "TrafficReport"); ("VVelocity", VInt 64);
               ("Address", VInt 1)]%string (GDL90PubSub_init [])
  = Raise (AttributeError "Altitude").
Proof.
  apply (GDL_return_missing_attribute_raises None (GDL90PubSub_init [])); reflexivity.
Defined.

Lemma traffic_report_carries_heartbeat_time_witness :
  exists publish_dict : gmap string Value,
    publish_dict !! "time"%string = Some (VInt 53467)
    /\ Forall (fun ka => publish_dict !! ka.1 = lookup_field example_traffic ka.2)
              published_keys
    /\ (self1 ← _GDL_return (Some (fun p b => Ok (p :: b)))
                  [("MsgType", VStr "Heartbeat"); ("Timestamp", VInt 53467)]%string
                  (GDL90PubSub_init []);
        _GDL_return (Some (fun p b => Ok (p :: b))) example_traffic self1)
       = (b ← Ok (publish_dict :: []); Ok (mkGDL90PubSub (VInt 53467) b)).
Proof.
  apply (traffic_report_carries_heartbeat_time (fun p b => Ok (p :: b))
           (GDL90PubSub_init [])
           [("MsgType", VStr "Heartbeat"); ("Timestamp", VInt 53467)]%string
           example_traffic (VInt 53467)); reflexivity.
Defined.
